(** * sync-safe-file-names: a shallow embedding of [src/safe-name.ts] and of
    the plugin ([main.ts]): renaming, the report and the settings life cycle.

    JavaScript strings are sequences of UTF-16 code units; a string is
    modelled as a list of code units ([str := list Z]).  A thrown exception
    is modelled by [None] (sanitizer) or by an exception outcome (plugin
    monad). *)

From Stdlib Require Import ZArith List Bool Ascii String Lia Btauto Permutation DecimalString.
Import ListNotations.
Open Scope Z_scope.
Open Scope list_scope.

(** ** Strings *)

Definition str := list Z.

(** The UTF-16 code units of an ASCII literal. *)
Definition js (s : string) : str :=
  map (fun a => Z.of_nat (nat_of_ascii a)) (list_ascii_of_string s).

(** JavaScript [===] on strings. *)
Definition str_eqb (a b : str) : bool :=
  if list_eq_dec Z.eq_dec a b then true else false.

(** Option (exception) monad used by the sanitizer. *)
Definition obind {A B} (m : option A) (f : A -> option B) : option B :=
  match m with Some a => f a | None => None end.

Notation "x <- m ;; k" := (obind m (fun x => k))
  (at level 61, m at next level, right associativity).
Notation "' p <- m ;; k" := (obind m (fun y => match y with p => k end))
  (at level 61, p pattern, m at next level, right associativity).

(** ** ECMAScript whitespace

    [WhiteSpace] and [LineTerminator] code units: the set removed by
    [String.prototype.trim] and matched by the class escape [\s]. *)
Definition is_ws (c : Z) : bool :=
  (c =? 9) || (c =? 10) || (c =? 11) || (c =? 12) || (c =? 13) || (c =? 32)
  || (c =? 160) || (c =? 5760) || ((8192 <=? c) && (c <=? 8202))
  || (c =? 8232) || (c =? 8233) || (c =? 8239) || (c =? 8287)
  || (c =? 12288) || (c =? 65279).

Fixpoint trim_start (s : str) : str :=
  match s with
  | [] => []
  | c :: r => if is_ws c then trim_start r else s
  end.

Definition trim_end (s : str) : str := rev (trim_start (rev s)).

(** [String.prototype.trim]. *)
Definition trim (s : str) : str := trim_end (trim_start s).

(** ** Regular-expression character classes

    [new RegExp(`[^${body}]`, "g")] without the [u] flag: the class body is
    parsed by the ECMAScript grammar [ClassContents] with the web-compatibility
    rules of Annex B (legacy octal and identity escapes, [\c] fallback,
    ranges with a class escape as an end point).  A [SyntaxError] is [None]. *)

Inductive class_escape :=
  EscDigit | EscNotDigit | EscSpace | EscNotSpace | EscWord | EscNotWord.

Inductive class_atom :=
| AChar (c : Z)
| AEsc (k : class_escape).

Inductive class_item :=
| ISingle (c : Z)
| IRange (lo hi : Z)
| IEsc (k : class_escape).

Definition is_digit (c : Z) : bool := (48 <=? c) && (c <=? 57).
Definition is_ascii_letter (c : Z) : bool :=
  ((65 <=? c) && (c <=? 90)) || ((97 <=? c) && (c <=? 122)).
Definition is_word (c : Z) : bool :=
  is_ascii_letter c || is_digit c || (c =? 95).
Definition is_octal (c : Z) : bool := (48 <=? c) && (c <=? 55).

Definition hex_val (c : Z) : option Z :=
  if is_digit c then Some (c - 48)
  else if (65 <=? c) && (c <=? 70) then Some (c - 55)
  else if (97 <=? c) && (c <=? 102) then Some (c - 87)
  else None.

Definition escape_mem (k : class_escape) (c : Z) : bool :=
  match k with
  | EscDigit => is_digit c
  | EscNotDigit => negb (is_digit c)
  | EscSpace => is_ws c
  | EscNotSpace => negb (is_ws c)
  | EscWord => is_word c
  | EscNotWord => negb (is_word c)
  end.

(** [LegacyOctalEscapeSequence], [d1] being the first octal digit. *)
Definition legacy_octal (d1 : Z) (r : str) : class_atom * str :=
  match r with
  | c2 :: r2 =>
      if is_octal c2 then
        if d1 <=? 3 then
          match r2 with
          | c3 :: r3 =>
              if is_octal c3 then (AChar (d1 * 64 + (c2 - 48) * 8 + (c3 - 48)), r3)
              else (AChar (d1 * 8 + (c2 - 48)), r2)
          | [] => (AChar (d1 * 8 + (c2 - 48)), r2)
          end
        else (AChar (d1 * 8 + (c2 - 48)), r2)
      else (AChar d1, r)
  | [] => (AChar d1, r)
  end.

(** [ClassEscape] in a class, [s] being the text after the backslash. *)
Definition parse_class_escape (s : str) : option (class_atom * str) :=
  match s with
  | [] => None                                   (* \ at end of pattern *)
  | c :: r =>
      if c =? 98 then Some (AChar 8, r)           (* \b : backspace *)
      else if c =? 100 then Some (AEsc EscDigit, r)
      else if c =? 68 then Some (AEsc EscNotDigit, r)
      else if c =? 115 then Some (AEsc EscSpace, r)
      else if c =? 83 then Some (AEsc EscNotSpace, r)
      else if c =? 119 then Some (AEsc EscWord, r)
      else if c =? 87 then Some (AEsc EscNotWord, r)
      else if c =? 102 then Some (AChar 12, r)    (* \f *)
      else if c =? 110 then Some (AChar 10, r)    (* \n *)
      else if c =? 114 then Some (AChar 13, r)    (* \r *)
      else if c =? 116 then Some (AChar 9, r)     (* \t *)
      else if c =? 118 then Some (AChar 11, r)    (* \v *)
      else if c =? 99 then                        (* \c *)
        match r with
        | x :: r' =>
            if is_ascii_letter x || is_digit x || (x =? 95)
            then Some (AChar (x mod 32), r')
            else Some (AChar 92, s)               (* the backslash itself *)
        | [] => Some (AChar 92, s)
        end
      else if c =? 120 then                       (* \xHH *)
        match r with
        | h1 :: h2 :: r' =>
            match hex_val h1, hex_val h2 with
            | Some a, Some b => Some (AChar (a * 16 + b), r')
            | _, _ => Some (AChar 120, r)
            end
        | _ => Some (AChar 120, r)
        end
      else if c =? 117 then                       (* \uHHHH *)
        match r with
        | h1 :: h2 :: h3 :: h4 :: r' =>
            match hex_val h1, hex_val h2, hex_val h3, hex_val h4 with
            | Some a, Some b, Some d, Some e =>
                Some (AChar (((a * 16 + b) * 16 + d) * 16 + e), r')
            | _, _, _, _ => Some (AChar 117, r)
            end
        | _ => Some (AChar 117, r)
        end
      else if is_octal c then Some (legacy_octal (c - 48) r)
      else Some (AChar c, r)                      (* identity escape *)
  end.

(** [ClassAtom]. *)
Definition parse_class_atom (s : str) : option (class_atom * str) :=
  match s with
  | [] => None
  | c :: r => if c =? 92 then parse_class_escape r else Some (AChar c, r)
  end.

Definition atom_item (a : class_atom) : class_item :=
  match a with AChar c => ISingle c | AEsc k => IEsc k end.

(** [CharacterRangeOrUnion] without the [u] flag; an out-of-order range of
    two characters is a [SyntaxError]. *)
Definition class_range (a b : class_atom) : option (list class_item) :=
  match a, b with
  | AChar x, AChar y => if y <? x then None else Some [IRange x y]
  | _, _ => Some [atom_item a; ISingle 45; atom_item b]
  end.

(** A hyphen that starts a range: followed by something other than [\]]. *)
Definition range_follows (s1 : str) : bool :=
  match s1 with
  | d :: e :: _ => (d =? 45) && negb (e =? 93)
  | _ => false
  end.

(** [ClassContents] up to the closing [\]]; every round consumes at least one
    code unit, so [S (length s)] rounds suffice. *)
Fixpoint parse_class_ranges (fuel : nat) (s : str)
  : option (list class_item * str) :=
  match fuel with
  | O => None
  | S fuel' =>
      match s with
      | [] => None                                (* unterminated class *)
      | c :: r =>
          if c =? 93 then Some ([], r)
          else
            '(a, s1) <- parse_class_atom s ;;
            if range_follows s1 then
              '(b, s3) <- parse_class_atom (tl s1) ;;
              its <- class_range a b ;;
              '(rest, s4) <- parse_class_ranges fuel' s3 ;;
              Some (its ++ rest, s4)
            else
              '(rest, s4) <- parse_class_ranges fuel' s1 ;;
              Some (atom_item a :: rest, s4)
      end
  end.

(** [new RegExp(`[^${body}]`, "g")].  The body never contains an unescaped
    [\]] here (brackets are removed from the user's characters), so the class
    closes at the final [\]] or not at all. *)
Definition new_RegExp_negated_class (body : str) : option (list class_item) :=
  match parse_class_ranges (S (List.length (body ++ [93]))) (body ++ [93]) with
  | Some (items, []) => Some items
  | _ => None
  end.

Definition item_mem (c : Z) (i : class_item) : bool :=
  match i with
  | ISingle x => c =? x
  | IRange lo hi => (lo <=? c) && (c <=? hi)
  | IEsc k => escape_mem k c
  end.

Definition class_mem (items : list class_item) (c : Z) : bool :=
  existsb (item_mem c) items.

(** ** [src/safe-name.ts] *)

(** [export const baseCharacters = "-a-zA-Z0-9._ "] *)
Definition baseCharacters : str := js "-a-zA-Z0-9._ ".

(** [.replace(/[–—]/g, "-")] *)
Definition replace_dash (c : Z) : Z :=
  if (c =? 8211) || (c =? 8212) then 45 else c.
(** [.replace(/’/g, "'")] *)
Definition replace_apostrophe (c : Z) : Z := if c =? 8217 then 39 else c.
(** [.replace(/[“”]/g, ...)]: curled double quotes become the straight one (34). *)
Definition replace_quote (c : Z) : Z :=
  if (c =? 8220) || (c =? 8221) then 34 else c.
(** [.replace(regexp, "-")] for [regexp = /[^...]/g], one code unit at a time. *)
Definition replace_unknown (items : list class_item) (c : Z) : Z :=
  if class_mem items c then c else 45.

(** [additionalCharacters.replace(/[[\]]/g, "")] *)
Definition strip_brackets (s : str) : str :=
  filter (fun c => negb ((c =? 91) || (c =? 93))) s.

Definition getSafeName (rawFileName additionalCharacters : str) : option str :=
  let safeAdditionalCharacters := strip_brackets additionalCharacters in
  regexp <- new_RegExp_negated_class (baseCharacters ++ safeAdditionalCharacters) ;;
  Some (trim (map (replace_unknown regexp)
                (map replace_quote
                   (map replace_apostrophe
                      (map replace_dash rawFileName))))).

(** ** The sanitizer as the spec words it (for comparison with [getSafeName])

    Steps 1-3 normalise typographic dashes and quotes, step 4 replaces every
    code unit outside the union of the base set and the additional characters
    without square brackets by one hyphen, step 5 trims whitespace. *)

Definition spec_normalize (c : Z) : Z :=
  if (c =? 8211) || (c =? 8212) then 45
  else if c =? 8217 then 39
  else if (c =? 8220) || (c =? 8221) then 34
  else c.

(** The base set [{A-Z, a-z, 0-9, hyphen, period, underscore, space}]. *)
Definition in_base_set (c : Z) : bool :=
  is_ascii_letter c || is_digit c || (c =? 45) || (c =? 46) || (c =? 95) || (c =? 32).

(** The effective allow-list as a literal set of code units. *)
Definition effective_allowed (additional : str) (c : Z) : bool :=
  in_base_set c
  || (existsb (Z.eqb c) additional && negb ((c =? 91) || (c =? 93))).

Definition sanitize_spec (rawName additional : str) : str :=
  trim (map (fun c => if effective_allowed additional c then c else 45)
          (map spec_normalize rawName)).

(** Whitespace at the edges of a string. *)
Definition starts_ws (s : str) : bool :=
  match s with [] => false | c :: _ => is_ws c end.
Definition ends_ws (s : str) : bool := starts_ws (rev s).

(** The typographic variants the sanitizer normalises. *)
Definition is_typographic (c : Z) : bool :=
  (c =? 8211) || (c =? 8212) || (c =? 8217) || (c =? 8220) || (c =? 8221).

(** An additional-characters string that the class construction reads
    literally: no backslash (escape) and no hyphen (range). *)
Definition class_literal (additional : str) : bool :=
  forallb (fun c => negb ((c =? 92) || (c =? 45))) additional.

(** ** The plugin ([main.ts])

    Settings, vault entries and the host's file manager.  The host (Obsidian)
    is an external collaborator: its [renameFile] is an argument that says how
    the rename request for a given source and destination path ends. *)

Record SyncSafeSettings := {
  renameAutomatically : bool;
  addOriginalAlias : bool;
  additionalCharacters : str }.

(** [DEFAULT_SETTINGS]; the additional characters are
    [&+'(),$€ÄäÖöÜüßÀàÉéÈèÇçÂâÊêËëÏïÎîÔôŒœÆæ] as UTF-16 code units. *)
Definition DEFAULT_SETTINGS : SyncSafeSettings := {|
  renameAutomatically := true;
  addOriginalAlias := true;
  additionalCharacters :=
    [38; 43; 39; 40; 41; 44; 36; 8364; 196; 228; 214; 246; 220; 252; 223; 192;
     224; 201; 233; 200; 232; 199; 231; 194; 226; 202; 234; 203; 235; 207; 239;
     206; 238; 212; 244; 338; 339; 198; 230] |}.

(** A vault entry ([TAbstractFile]); [is_tfile] is [file instanceof TFile],
    [parent] the path of the parent folder ([file.parent?.path]) and
    [basename] the [TFile]'s name without extension. *)
Record TAbstractFile := {
  name : str;
  path : str;
  parent : option str;
  is_tfile : bool;
  basename : str }.

(** [String.prototype.split("/")] for a one-unit separator. *)
Fixpoint js_split (sep : Z) (s : str) : list str :=
  match s with
  | [] => [[]]
  | c :: r =>
      let parts := js_split sep r in
      if c =? sep then [] :: parts
      else match parts with
           | p :: ps => (c :: p) :: ps
           | [] => [[c]]
           end
  end.

(** [Array.prototype.join("/")]. *)
Fixpoint js_join (sep : Z) (parts : list str) : str :=
  match parts with
  | [] => []
  | [p] => p
  | p :: ps => p ++ sep :: js_join sep ps
  end.

Definition getSafeNameFromFile (settings : SyncSafeSettings) (file : TAbstractFile)
  : option str :=
  let previousName := name file in
  getSafeName previousName (additionalCharacters settings).

Definition getSafePath (file : TAbstractFile) (safeName : str) : list str :=
  let newPath :=
    match parent file with
    | Some p => filter (fun part => negb (Nat.eqb (List.length part) 0)) (js_split 47 p)
    | None => []
    end in
  newPath ++ [safeName].

(** *** Results ([src/result.ts]) *)

Inductive error_code := alreadyExists | unspecified.

(** [Result<data, error>]; a failure carries [code], the optional [message]
    and, where the code sets it, [data.safeName]. *)
Inductive Result (D E : Type) :=
| Success (data : D)
| Failure (code : E) (message : option str) (data_safeName : option str).
Arguments Success {D E}.
Arguments Failure {D E}.

Record RenameResult := {
  alreadySafe : bool;
  previousName : str;
  result_safeName : option str }.

(** *** Effects: a state and exception monad

    The state is the front matter of every file (its [aliases] field only) and
    the log of requests sent to the host.  [Throw] is a rejected promise. *)

Inductive exn :=
| SyntaxError                  (* new RegExp with an invalid pattern *)
| TypeError                    (* frontmatter.aliases.push on a non-array *)
| HostThrow (v : Z).           (* a non-Error value thrown by the host *)

Inductive outcome (A : Type) := Ok (a : A) | Throw (e : exn).
Arguments Ok {A}.
Arguments Throw {A}.

(** The [aliases] value of a front matter: absent, an array, or anything else
    ([null], a string, a number, ...). *)
Inductive aliases_field :=
| AliasesUndefined
| AliasesArray (l : list str)
| AliasesOther.

Inductive event :=
| EvProcessFrontMatter (p : str)
| EvRenameFile (p dst : str).

Record world := {
  frontmatter_aliases : str -> aliases_field;
  requests : list event }.

Definition M (A : Type) := world -> outcome A * world.

Definition ret {A} (a : A) : M A := fun w => (Ok a, w).
Definition throw {A} (e : exn) : M A := fun w => (Throw e, w).
Definition mbind {A B} (m : M A) (k : A -> M B) : M B :=
  fun w => match m w with
           | (Ok a, w') => k a w'
           | (Throw e, w') => (Throw e, w')
           end.
Definition of_option {A} (o : option A) : M A :=
  match o with Some a => ret a | None => throw SyntaxError end.

Notation "'let!' x ':=' m 'in' k" := (mbind m (fun x => k))
  (at level 200, x name, m at level 100, k at level 200).

(** The host: which paths exist ([getAbstractFileByPath(p) !== null]) and how
    [fileManager.renameFile(file, dst)] ends. *)
Inductive rename_outcome :=
| RenameOk
| RenameRejects (message : str)      (* rejects with an Error *)
| RenameThrowsValue (v : Z).         (* rejects with a non-Error value *)

Record host := {
  host_exists : str -> bool;
  host_renameFile : str -> str -> rename_outcome }.

(** The spec's contract of the move primitive: an occupied destination makes
    it fail with an Error. *)
Definition host_contract (h : host) : Prop :=
  forall src dst, host_exists h dst = true ->
  exists m, host_renameFile h src dst = RenameRejects m.

Definition moveFile (h : host) (file : TAbstractFile) (newPath : list str)
  : M (Result bool error_code) :=
  fun w =>
    let dst := js_join 47 newPath in
    let w' := {| frontmatter_aliases := frontmatter_aliases w;
                 requests := requests w ++ [EvRenameFile (path file) dst] |} in
    match host_renameFile h (path file) dst with
    | RenameOk => (Ok (Success true), w')
    | RenameRejects m => (Ok (Failure alreadyExists (Some m) None), w')
    | RenameThrowsValue v => (Throw (HostThrow v), w')
    end.

(** [processFrontMatter] with the callback of [setAlias]: [aliases] is
    created when [undefined]; [push] on anything but an array throws. *)
Definition setAlias (file : TAbstractFile) (alias : str) : M unit :=
  fun w =>
    let write v := {| frontmatter_aliases :=
                        fun p => if str_eqb p (path file) then v
                                 else frontmatter_aliases w p;
                      requests := requests w ++ [EvProcessFrontMatter (path file)] |} in
    match frontmatter_aliases w (path file) with
    | AliasesUndefined => (Ok tt, write (AliasesArray [alias]))
    | AliasesArray l => (Ok tt, write (AliasesArray (l ++ [alias])))
    | AliasesOther => (Throw TypeError, w)
    end.

Definition renameSingleFile (settings : SyncSafeSettings) (h : host)
  (file : TAbstractFile) : M (Result RenameResult error_code) :=
  let previousName := name file in
  let! safeName := of_option (getSafeNameFromFile settings file) in
  if str_eqb previousName safeName then
    ret (Success {| alreadySafe := true; previousName := previousName;
                    result_safeName := None |})
  else
    let newPath := getSafePath file safeName in
    let! _ := (if is_tfile file && renameAutomatically settings
               then setAlias file (basename file) else ret tt) in
    let! result := moveFile h file newPath in
    match result with
    | Success _ =>
        ret (Success {| alreadySafe := false; previousName := previousName;
                        result_safeName := Some safeName |})
    | Failure alreadyExists _ _ => ret (Failure alreadyExists None (Some safeName))
    | Failure unspecified message _ => ret (Failure unspecified message None)
    end.

(** *** The planner *)

Record FileToRename := {
  isAlreadySafe : bool;
  safeName : str;
  file : TAbstractFile }.

Fixpoint map_option {A B} (f : A -> option B) (l : list A) : option (list B) :=
  match l with
  | [] => Some []
  | x :: r => y <- f x ;; ys <- map_option f r ;; Some (y :: ys)
  end.

(** [getFilesToRename], [allFiles] being [this.app.vault.getFiles()]. *)
Definition getFilesToRename (settings : SyncSafeSettings) (allFiles : list TAbstractFile)
  : option (list FileToRename) :=
  entries <- map_option
    (fun file =>
       safeName <- getSafeNameFromFile settings file ;;
       let isAlreadySafe := str_eqb (name file) safeName in
       Some {| isAlreadySafe := isAlreadySafe; safeName := safeName; file := file |})
    allFiles ;;
  Some (filter (fun entry => negb (isAlreadySafe entry)) entries).

(** *** Notices ([renameSingleFileSilently], [onRename], [onCreate])

    A function that shows notices returns the texts it showed, in order.
    [`${n}`] of a count is its decimal numeral; a template slot holding
    [undefined] prints [undefined]. *)

Definition dec (n : nat) : str := js (NilEmpty.string_of_uint (Nat.to_uint n)).

Definition template_slot (v : option str) : str :=
  match v with Some s => s | None => js "undefined" end.

(** [result.error.data.safeName] throws when [data] is [undefined]. *)
Definition renameSingleFileSilently (settings : SyncSafeSettings) (h : host)
  (file : TAbstractFile) : M (list str) :=
  let! result := renameSingleFile settings h file in
  match result with
  | Success data =>
      if negb (alreadySafe data) then ret [js "Renamed file to make it sync-safe."]
      else ret []
  | Failure code message data_safeName =>
      match data_safeName with
      | None => throw TypeError
      | Some s =>
          match code with
          | alreadyExists =>
              ret [js "Sync-safe: Could not rename to " ++ [34] ++ s ++ [34]
                   ++ js " because that file already exists."]
          | unspecified =>
              ret [js "Sync-safe: Could not rename to " ++ [34] ++ s ++ [34]
                   ++ js " because of an error: " ++ template_slot message]
          end
      end
  end.

(** The handler of the vault's [rename] event; [onCreate] runs the same
    function after a delay of 100 ms. *)
Definition onRename (settings : SyncSafeSettings) (h : host) (file : TAbstractFile)
  : M (list str) :=
  renameSingleFileSilently settings h file.

(** *** [renameAllFiles]

    The callbacks of [filesToRename.map] run synchronously up to the host's
    [renameFile], so every rename is requested, in the order of the entries,
    before any of them settles; [Promise.all] then rejects if one of them
    rejected (with the first such rejection in that order) and otherwise yields
    the results in order. *)

Fixpoint moveAll (h : host) (filesToRename : list FileToRename) (w : world)
  : list (outcome (Result bool error_code)) * world :=
  match filesToRename with
  | [] => ([], w)
  | entry :: rest =>
      let newPath := getSafePath (file entry) (safeName entry) in
      let (o, w1) := moveFile h (file entry) newPath w in
      let (os, w2) := moveAll h rest w1 in
      (o :: os, w2)
  end.

Fixpoint promise_all {A} (os : list (outcome A)) : outcome (list A) :=
  match os with
  | [] => Ok []
  | Throw e :: _ => Throw e
  | Ok a :: rest =>
      match promise_all rest with
      | Ok l => Ok (a :: l)
      | Throw e => Throw e
      end
  end.

Definition is_success {D E} (r : Result D E) : bool :=
  match r with Success _ => true | Failure _ _ _ => false end.

(** The [results.forEach] loop: [(successes, failures)]. *)
Definition count_results (results : list (Result bool error_code)) : nat * nat :=
  fold_left (fun '(successes, failures) result =>
               if is_success result then (S successes, failures)
               else (successes, S failures))
            results (0%nat, 0%nat).

(** The notice it shows when every rename settled. *)
Definition renameAllFiles (settings : SyncSafeSettings) (h : host)
  (allFiles : list TAbstractFile) : M str :=
  let! filesToRename := of_option (getFilesToRename settings allFiles) in
  fun w =>
    let (outs, w') := moveAll h filesToRename w in
    match promise_all outs with
    | Throw e => (Throw e, w')
    | Ok results =>
        let (successes, failures) := count_results results in
        (Ok (if Nat.eqb failures 0
             then js "Successfully renamed " ++ dec successes ++ js " file(s)."
             else js "Failed to rename " ++ dec failures
                  ++ js " file(s). Successfully renamed " ++ dec successes
                  ++ js " file(s)."), w')
    end.

(** *** [generateReport]

    [Array.prototype.sort] with a consistent comparator is a stable sort; the
    comparator here is the host's [String.prototype.localeCompare] on the
    paths, an argument.  A stable insertion sort computes the same order. *)

Fixpoint insert_by {A} (cmp : A -> A -> Z) (x : A) (l : list A) : list A :=
  match l with
  | [] => [x]
  | y :: ys => if cmp x y <? 0 then x :: y :: ys else y :: insert_by cmp x ys
  end.

Definition sort_by {A} (cmp : A -> A -> Z) (l : list A) : list A :=
  fold_left (fun sorted x => insert_by cmp x sorted) l [].

Definition tableHeading : str :=
  js "| Current path| Current name | Safe name | Rename possible |" ++ [10]
  ++ js "|---|---|---|---|".

(** One row of the table, for [{newPathAvailable, ...entry}].  The path array
    in the template literal is printed by [Array.prototype.toString], that is
    joined with commas. *)
Definition report_row (checked : bool * FileToRename) : str :=
  let '(newPathAvailable, entry) := checked in
  let renamePossible :=
    if newPathAvailable then js "Yes"
    else js "No, already exists: [[" ++ js_join 44 (getSafePath (file entry) (safeName entry))
         ++ js "]]" in
  js "| [[" ++ path (file entry) ++ js "]] | " ++ name (file entry) ++ js " | "
  ++ safeName entry ++ js " | " ++ renamePossible ++ js " |".

(** The text inserted at the cursor ([None]: the command throws and inserts
    nothing). *)
Definition generateReport (settings : SyncSafeSettings) (h : host)
  (localeCompare : str -> str -> Z) (allFiles : list TAbstractFile) : option str :=
  filesToRename <- getFilesToRename settings allFiles ;;
  if Nat.eqb (List.length filesToRename) 0 then Some (js "All files are already sync-safe.")
  else
    let sorted := sort_by (fun left right => localeCompare (path (file left)) (path (file right)))
                          filesToRename in
    let checkedFiles :=
      map (fun entry =>
             let newPath := getSafePath (file entry) (safeName entry) in
             (negb (host_exists h (js_join 47 newPath)), entry)) sorted in
    let tableRows := map report_row checkedFiles in
    Some (dec (List.length sorted) ++ js " files should be renamed to be sync-safe:" ++ [10; 10]
          ++ tableHeading ++ [10] ++ js_join 10 tableRows).

(** *** Settings and automatic renaming

    The plugin's state: its settings, [automaticRenameCallbacks] ([None] while
    the field is [undefined]), the vault handlers it has registered (event
    references, numbered), whether the workspace layout is ready, how many
    [onLayoutReady] callbacks are waiting, the next fresh reference, and the
    data last stored by [saveData]. *)

Inductive vault_event := VaultCreate | VaultRename.

Definition EventRef := (nat * vault_event)%type.

(** What [loadData] returns: [null] before the first save, else an object
    that may lack keys. *)
Record stored_settings := {
  stored_renameAutomatically : option bool;
  stored_addOriginalAlias : option bool;
  stored_additionalCharacters : option str }.

Record plugin_state := {
  ps_settings : SyncSafeSettings;
  automaticRenameCallbacks : option (list EventRef);
  vault_handlers : list EventRef;
  layout_ready : bool;
  layout_queue : nat;
  next_ref : nat;
  saved_data : option stored_settings }.

Definition with_settings (ps : plugin_state) (s : SyncSafeSettings) : plugin_state :=
  {| ps_settings := s; automaticRenameCallbacks := automaticRenameCallbacks ps;
     vault_handlers := vault_handlers ps; layout_ready := layout_ready ps;
     layout_queue := layout_queue ps; next_ref := next_ref ps;
     saved_data := saved_data ps |}.

Definition default_to {A} (o : option A) (d : A) : A :=
  match o with Some a => a | None => d end.

(** [Object.assign({}, DEFAULT_SETTINGS, await this.loadData())]. *)
Definition loadSettings (data : option stored_settings) : SyncSafeSettings :=
  match data with
  | None => DEFAULT_SETTINGS
  | Some d =>
      {| renameAutomatically :=
           default_to (stored_renameAutomatically d) (renameAutomatically DEFAULT_SETTINGS);
         addOriginalAlias :=
           default_to (stored_addOriginalAlias d) (addOriginalAlias DEFAULT_SETTINGS);
         additionalCharacters :=
           default_to (stored_additionalCharacters d) (additionalCharacters DEFAULT_SETTINGS) |}
  end.

(** [saveData(this.settings)] stores every key. *)
Definition stored_of (s : SyncSafeSettings) : stored_settings :=
  {| stored_renameAutomatically := Some (renameAutomatically s);
     stored_addOriginalAlias := Some (addOriginalAlias s);
     stored_additionalCharacters := Some (additionalCharacters s) |}.

(** The callback given to [onLayoutReady]: two [vault.on] handlers, both
    registered, become [automaticRenameCallbacks]. *)
Definition register_callbacks (ps : plugin_state) : plugin_state :=
  let callbacks := [(next_ref ps, VaultCreate); (S (next_ref ps), VaultRename)] in
  {| ps_settings := ps_settings ps; automaticRenameCallbacks := Some callbacks;
     vault_handlers := vault_handlers ps ++ callbacks; layout_ready := layout_ready ps;
     layout_queue := layout_queue ps; next_ref := S (S (next_ref ps));
     saved_data := saved_data ps |}.

(** [onLayoutReady] runs the callback at once when the layout is ready and
    queues it otherwise. *)
Definition registerAutomaticRenaming (ps : plugin_state) : plugin_state :=
  if layout_ready ps then register_callbacks ps
  else {| ps_settings := ps_settings ps;
          automaticRenameCallbacks := automaticRenameCallbacks ps;
          vault_handlers := vault_handlers ps; layout_ready := layout_ready ps;
          layout_queue := S (layout_queue ps); next_ref := next_ref ps;
          saved_data := saved_data ps |}.

Definition ref_eqb (r q : EventRef) : bool :=
  Nat.eqb (fst r) (fst q).

(** [forEach] on [undefined] throws. *)
Definition unregisterAutomaticRenaming (ps : plugin_state) : outcome unit * plugin_state :=
  match automaticRenameCallbacks ps with
  | None => (Throw TypeError, ps)
  | Some callbacks =>
      (Ok tt,
       {| ps_settings := ps_settings ps; automaticRenameCallbacks := Some [];
          vault_handlers :=
            filter (fun r => negb (existsb (ref_eqb r) callbacks)) (vault_handlers ps);
          layout_ready := layout_ready ps; layout_queue := layout_queue ps;
          next_ref := next_ref ps; saved_data := saved_data ps |})
  end.

(** [saveSettings]; [.length] on [undefined] throws, and [&&] evaluates its
    right operand only when the left one holds. *)
Definition saveSettings (ps : plugin_state) : outcome unit * plugin_state :=
  let step :=
    if renameAutomatically (ps_settings ps) then
      match automaticRenameCallbacks ps with
      | None => (Throw TypeError, ps)
      | Some callbacks =>
          if Nat.eqb (List.length callbacks) 0 then (Ok tt, registerAutomaticRenaming ps)
          else (Ok tt, ps)
      end
    else
      match automaticRenameCallbacks ps with
      | None => (Throw TypeError, ps)
      | Some callbacks =>
          if Nat.ltb 0 (List.length callbacks) then unregisterAutomaticRenaming ps
          else (Ok tt, ps)
      end in
  match step with
  | (Throw e, ps') => (Throw e, ps')
  | (Ok _, ps') =>
      (Ok tt,
       {| ps_settings := ps_settings ps';
          automaticRenameCallbacks := automaticRenameCallbacks ps';
          vault_handlers := vault_handlers ps'; layout_ready := layout_ready ps';
          layout_queue := layout_queue ps'; next_ref := next_ref ps';
          saved_data := Some (stored_of (ps_settings ps')) |})
  end.

(** [onload] (the commands and the settings tab aside), given what [loadData]
    returns and whether the layout is already ready. *)
Definition onload (data : option stored_settings) (ready : bool) : plugin_state :=
  let ps := {| ps_settings := loadSettings data; automaticRenameCallbacks := None;
               vault_handlers := []; layout_ready := ready; layout_queue := 0;
               next_ref := 0; saved_data := data |} in
  if renameAutomatically (ps_settings ps) then registerAutomaticRenaming ps else ps.

(** What can happen afterwards: a change in the settings tab (its [onChange]
    handler assigns the field and awaits [saveSettings]), or the layout
    becoming ready, which runs the queued callbacks. *)
Inductive ui_op :=
| SetRenameAutomatically (value : bool)
| SetAddOriginalAlias (value : bool)
| SetAdditionalCharacters (value : str)
| LayoutReady.

Definition ui_step (ps : plugin_state) (op : ui_op) : outcome unit * plugin_state :=
  let s := ps_settings ps in
  match op with
  | SetRenameAutomatically value =>
      saveSettings (with_settings ps {| renameAutomatically := value;
                                        addOriginalAlias := addOriginalAlias s;
                                        additionalCharacters := additionalCharacters s |})
  | SetAddOriginalAlias value =>
      saveSettings (with_settings ps {| renameAutomatically := renameAutomatically s;
                                        addOriginalAlias := value;
                                        additionalCharacters := additionalCharacters s |})
  | SetAdditionalCharacters value =>
      saveSettings (with_settings ps {| renameAutomatically := renameAutomatically s;
                                        addOriginalAlias := addOriginalAlias s;
                                        additionalCharacters := value |})
  | LayoutReady =>
      if layout_ready ps then (Ok tt, ps)
      else
        let ps1 := {| ps_settings := s; automaticRenameCallbacks := automaticRenameCallbacks ps;
                      vault_handlers := vault_handlers ps; layout_ready := true;
                      layout_queue := 0; next_ref := next_ref ps;
                      saved_data := saved_data ps |} in
        (Ok tt, Nat.iter (layout_queue ps) register_callbacks ps1)
  end.

(** A rejected [onChange] promise is unhandled; the next change starts from
    the state where it stopped. *)
Fixpoint run_ui (ps : plugin_state) (ops : list ui_op) : list (outcome unit) * plugin_state :=
  match ops with
  | [] => ([], ps)
  | op :: rest =>
      let (o, ps1) := ui_step ps op in
      let (os, ps2) := run_ui ps1 rest in
      (o :: os, ps2)
  end.

(** *** Concrete inputs *)

(** Two notes at the vault root (folder path ["/"]). *)
Definition ok_md : TAbstractFile := {|
  name := js "ok.md"; path := js "ok.md"; parent := Some (js "/");
  is_tfile := true; basename := js "ok" |}.
Definition bad_md : TAbstractFile := {|
  name := js "bad?.md"; path := js "bad?.md"; parent := Some (js "/");
  is_tfile := true; basename := js "bad?" |}.

(** [bad?.md] after its rename. *)
Definition bad_md_renamed : TAbstractFile := {|
  name := js "bad-.md"; path := js "bad-.md"; parent := Some (js "/");
  is_tfile := true; basename := js "bad-" |}.
(** A note in a subfolder. *)
Definition note_in_folder : TAbstractFile := {|
  name := js "a?.md"; path := js "notes/2024/a?.md"; parent := Some (js "notes/2024");
  is_tfile := true; basename := js "a?" |}.

(** No front matter anywhere, nothing requested yet. *)
Definition world0 : world := {|
  frontmatter_aliases := fun _ => AliasesUndefined; requests := [] |}.
(** Every front matter has [aliases:] with no value, i.e. [null]. *)
Definition world_null_aliases : world := {|
  frontmatter_aliases := fun _ => AliasesOther; requests := [] |}.

(** An empty vault whose renames succeed. *)
Definition host_free : host := {|
  host_exists := fun _ => false; host_renameFile := fun _ _ => RenameOk |}.
(** An empty vault whose renames fail with an I/O error. *)
Definition host_eacces : host := {|
  host_exists := fun _ => false;
  host_renameFile := fun _ _ => RenameRejects (js "EACCES: permission denied") |}.

(** An empty vault whose renames reject with a non-Error value. *)
Definition host_throwing : host := {|
  host_exists := fun _ => false; host_renameFile := fun _ _ => RenameThrowsValue 0 |}.

(** Stored data from an earlier session with automatic renaming switched off. *)
Definition data_auto_off : option stored_settings :=
  Some {| stored_renameAutomatically := Some false; stored_addOriginalAlias := None;
          stored_additionalCharacters := None |}.

(** *** Auxiliary definitions for the proofs *)

Definition normalize (c : Z) : Z := replace_quote (replace_apostrophe (replace_dash c)).

(** A code unit that the class parser reads as a one-unit atom. *)
Definition plain_char (x : Z) : bool := negb ((x =? 92) || (x =? 45) || (x =? 93)).

(** The items of [baseCharacters], up to its final space. *)
Definition base_items : list class_item :=
  [ISingle 45; IRange 97 122; IRange 65 90; IRange 48 57; ISingle 46; ISingle 95].

(** Code units that file systems or sync services reject in file names:
    [/ \ : * ? < > |] and the double quote. *)
Definition reserved_in_file_names : str := js "/\:*?<>|" ++ [34].

(** How [moveFile] settles for an answer of the host. *)
Definition move_outcome (a : rename_outcome) : outcome (Result bool error_code) :=
  match a with
  | RenameOk => Ok (Success true)
  | RenameRejects m => Ok (Failure alreadyExists (Some m) None)
  | RenameThrowsValue v => Throw (HostThrow v)
  end.

(** The host's answer to the rename request of a planned entry. *)
Definition answer_of (h : host) (entry : FileToRename) : rename_outcome :=
  host_renameFile h (path (file entry)) (js_join 47 (getSafePath (file entry) (safeName entry))).

(** ** The repository's unit tests of [getSafeName] *)

Example getSafeName_test_valid :
  getSafeName (js "This is a valid filename.md") [] = Some (js "This is a valid filename.md").
Proof. vm_compute. reflexivity. Qed.
Example getSafeName_test_replace :
  getSafeName (js "This is not valid?.md") [] = Some (js "This is not valid-.md").
Proof. vm_compute. reflexivity. Qed.
Example getSafeName_test_trim :
  getSafeName (js " There is whitespace.md") [] = Some (js "There is whitespace.md").
Proof. vm_compute. reflexivity. Qed.
Example getSafeName_test_additional :
  getSafeName (js "Fancy (exotic) " ++ [381] ++ js "?.md") (js "(" ++ [381])
  = Some (js "Fancy (exotic- " ++ [381] ++ js "-.md").
Proof. vm_compute. reflexivity. Qed.

(** ** Lemmas on [trim] *)

Lemma trim_start_idem s : trim_start (trim_start s) = trim_start s.
Proof.
  induction s as [|c s IH]; simpl; [reflexivity|].
  destruct (is_ws c) eqn:E; [exact IH | simpl; rewrite E; reflexivity].
Qed.

Lemma trim_start_app l m :
  trim_start (l ++ m) = match trim_start l with [] => trim_start m | t => t ++ m end.
Proof.
  induction l as [|c l IH]; simpl; [reflexivity|].
  destruct (is_ws c); [exact IH | reflexivity].
Qed.

Lemma trim_start_fixed s : starts_ws s = false -> trim_start s = s.
Proof. destruct s as [|c s]; simpl; [reflexivity|]. intros ->. reflexivity. Qed.

Lemma starts_ws_trim_start s : starts_ws (trim_start s) = false.
Proof.
  induction s as [|c s IH]; simpl; [reflexivity|].
  destruct (is_ws c) eqn:E; [exact IH | simpl; exact E].
Qed.

Lemma starts_ws_rev_trim_start_rev u :
  starts_ws u = false -> starts_ws (rev (trim_start (rev u))) = false.
Proof.
  destruct u as [|c w]; simpl; [reflexivity|]. intros Hc.
  rewrite trim_start_app. simpl. rewrite Hc.
  destruct (trim_start (rev w)) as [|x t]; simpl; [exact Hc|].
  rewrite rev_app_distr. simpl. exact Hc.
Qed.

Lemma starts_ws_trim s : starts_ws (trim s) = false.
Proof.
  unfold trim, trim_end. apply starts_ws_rev_trim_start_rev, starts_ws_trim_start.
Qed.

Lemma ends_ws_trim s : ends_ws (trim s) = false.
Proof.
  unfold ends_ws, trim, trim_end. rewrite rev_involutive. apply starts_ws_trim_start.
Qed.

Lemma trim_fixed s : starts_ws s = false -> ends_ws s = false -> trim s = s.
Proof.
  intros H1 H2. unfold trim, trim_end. rewrite (trim_start_fixed s H1).
  unfold ends_ws in H2. rewrite (trim_start_fixed _ H2). apply rev_involutive.
Qed.

Lemma trim_idem s : trim (trim s) = trim s.
Proof. apply trim_fixed; [apply starts_ws_trim | apply ends_ws_trim]. Qed.

Lemma Forall_trim_start (P : Z -> Prop) s : Forall P s -> Forall P (trim_start s).
Proof.
  induction s as [|c s IH]; simpl; [auto|]. intros H. inversion H; subst.
  destruct (is_ws c); auto.
Qed.

Lemma Forall_trim (P : Z -> Prop) s : Forall P s -> Forall P (trim s).
Proof.
  intros H. unfold trim, trim_end.
  apply Forall_rev, Forall_trim_start, Forall_rev, Forall_trim_start, H.
Qed.

Lemma trim_all_ws s : forallb is_ws s = true -> trim s = [].
Proof.
  intros H. unfold trim, trim_end.
  assert (trim_start s = []) as ->.
  { induction s as [|c s IH]; simpl in *; [reflexivity|].
    apply andb_true_iff in H as [-> H]. apply IH, H. }
  reflexivity.
Qed.

(** ** Lemmas on the class construction *)

Lemma length_baseCharacters : List.length baseCharacters = 13%nat.
Proof. reflexivity. Qed.

Lemma parse_base_prefix fuel s :
  parse_class_ranges (6 + fuel) (baseCharacters ++ s) =
  match parse_class_ranges fuel (32 :: s) with
  | Some (rest, s') => Some (base_items ++ rest, s')
  | None => None
  end.
Proof.
  destruct s as [|e s]; simpl;
    destruct (parse_class_ranges fuel _) as [[? ?]|]; reflexivity.
Qed.

(** A first code unit that is neither [\\] nor [\]] belongs to the class. *)
Lemma parse_first_mem fuel c s items s' :
  parse_class_ranges (S fuel) (c :: s) = Some (items, s') ->
  c <> 92 -> c <> 93 -> class_mem items c = true.
Proof.
  intros H H92 H93. cbn -[parse_class_atom range_follows class_range] in H.
  apply Z.eqb_neq in H92, H93. rewrite H93 in H.
  replace (parse_class_atom (c :: s)) with (Some (AChar c, s)) in H
    by (simpl; rewrite H92; reflexivity). cbn [obind] in H.
  destruct (range_follows s).
  - destruct (parse_class_atom (tl s)) as [[b s3]|]; cbn [obind] in H; [|discriminate].
    destruct (class_range (AChar c) b) as [its|] eqn:Er; cbn [obind] in H; [|discriminate].
    destruct (parse_class_ranges fuel s3) as [[rest s4]|]; cbn [obind] in H; [|discriminate].
    injection H as <- _. unfold class_mem. rewrite existsb_app. apply orb_true_iff. left.
    destruct b as [y|k]; simpl in Er.
    + destruct (y <? c) eqn:Ey; [discriminate|]. injection Er as <-.
      simpl. apply Z.ltb_ge in Ey. rewrite Z.leb_refl. simpl.
      rewrite (proj2 (Z.leb_le c y) Ey). reflexivity.
    + injection Er as <-. simpl. rewrite Z.eqb_refl. reflexivity.
  - destruct (parse_class_ranges fuel s) as [[rest s4]|]; cbn [obind] in H; [|discriminate].
    injection H as <- _. simpl. rewrite Z.eqb_refl. reflexivity.
Qed.

(** The fuel of [parse_class_ranges] is never what stops it: every atom
    consumes input, and any fuel above the input length gives one result. *)
Lemma legacy_octal_length d r : (List.length (snd (legacy_octal d r)) <= List.length r)%nat.
Proof.
  unfold legacy_octal. destruct r as [|c2 [|c3 r3]]; simpl;
    repeat match goal with |- context [if ?b then _ else _] => destruct b end;
    simpl; lia.
Qed.

Lemma parse_class_atom_length s a s1 :
  parse_class_atom s = Some (a, s1) -> (List.length s1 < List.length s)%nat.
Proof.
  destruct s as [|c r]; simpl; [discriminate|].
  destruct (c =? 92); [|intros H; inversion H; subst; simpl; lia].
  unfold parse_class_escape. destruct r as [|x r]; [discriminate|].
  repeat match goal with
         | |- context [if ?b then _ else _] => destruct b
         end;
    try (intros H; inversion H; subst; simpl; lia).
  - destruct r as [|y r']; [intros H; inversion H; subst; simpl; lia|].
    destruct (_ || _); intros H; inversion H; subst; simpl; lia.
  - destruct r as [|h1 [|h2 r']]; try (intros H; inversion H; subst; simpl; lia).
    destruct (hex_val h1), (hex_val h2); intros H; inversion H; subst; simpl; lia.
  - destruct r as [|h1 [|h2 [|h3 [|h4 r']]]];
      try (intros H; inversion H; subst; simpl; lia).
    destruct (hex_val h1), (hex_val h2), (hex_val h3), (hex_val h4);
      intros H; inversion H; subst; simpl; lia.
  - intros H. injection H as H. pose proof (legacy_octal_length (x - 48) r) as L.
    rewrite H in L. simpl in *. lia.
Qed.

Lemma parse_class_ranges_fuel n : forall m s,
  (List.length s < n)%nat -> (List.length s < m)%nat ->
  parse_class_ranges n s = parse_class_ranges m s.
Proof.
  induction n as [|n IH]; intros m s Hn Hm; [lia|].
  destruct m as [|m]; [lia|]. simpl.
  destruct s as [|c r]; [reflexivity|].
  destruct (c =? 93); [reflexivity|].
  destruct (parse_class_atom (c :: r)) as [[a s1]|] eqn:Ea; cbn [obind]; [|reflexivity].
  apply parse_class_atom_length in Ea.
  destruct (range_follows s1).
  - destruct (parse_class_atom (tl s1)) as [[b s3]|] eqn:Eb; cbn [obind]; [|reflexivity].
    assert (List.length (tl s1) <= List.length s1)%nat
      by (destruct s1; simpl; lia).
    apply parse_class_atom_length in Eb.
    destruct (class_range a b); cbn [obind]; [|reflexivity].
    rewrite (IH m s3) by lia. reflexivity.
  - rewrite (IH m s1) by lia. reflexivity.
Qed.

Lemma compile_base body items :
  new_RegExp_negated_class (baseCharacters ++ body) = Some items ->
  class_mem items 45 = true /\ class_mem items 32 = true.
Proof.
  unfold new_RegExp_negated_class. rewrite <- app_assoc.
  replace (S (List.length (baseCharacters ++ body ++ [93])))
    with (6 + S (List.length body + 8))%nat
    by (rewrite !length_app, length_baseCharacters; simpl; lia).
  rewrite parse_base_prefix.
  destruct (parse_class_ranges _ (32 :: body ++ [93])) as [[rest s']|] eqn:E;
    [|discriminate].
  destruct s'; [|discriminate]. intros H. injection H as <-.
  apply parse_first_mem in E; [|lia|lia].
  unfold class_mem in *. simpl. rewrite E. split; reflexivity.
Qed.

Lemma range_follows_not_hyphen x s : x <> 45 -> range_follows (x :: s) = false.
Proof.
  intros H. apply Z.eqb_neq in H. destruct s; simpl; [reflexivity|].
  rewrite H. reflexivity.
Qed.

Lemma parse_step_single fuel c s :
  c <> 92 -> c <> 93 -> range_follows s = false ->
  parse_class_ranges (S fuel) (c :: s)
  = '(rest, s4) <- parse_class_ranges fuel s ;; Some (ISingle c :: rest, s4).
Proof.
  intros H92 H93 Hr. apply Z.eqb_neq in H92, H93.
  cbn -[range_follows]. rewrite H93, H92. cbn -[range_follows]. rewrite Hr.
  reflexivity.
Qed.

Lemma parse_plain add : forall fuel c,
  c <> 92 -> c <> 93 -> forallb plain_char add = true -> (List.length add < fuel)%nat ->
  parse_class_ranges (S fuel) (c :: add ++ [93]) = Some (map ISingle (c :: add), []).
Proof.
  induction add as [|x add IH]; intros fuel c H92 H93 Hp Hf.
  - rewrite parse_step_single by (auto; reflexivity).
    destruct fuel as [|fuel]; [simpl in Hf; lia|]. reflexivity.
  - simpl in Hp. apply andb_true_iff in Hp as [Hx Hp].
    unfold plain_char in Hx. apply negb_true_iff in Hx.
    apply orb_false_iff in Hx as [Hx H93x]. apply orb_false_iff in Hx as [H92x H45x].
    apply Z.eqb_neq in H92x, H45x, H93x.
    simpl app. rewrite parse_step_single by (auto; apply range_follows_not_hyphen; exact H45x).
    destruct fuel as [|fuel]; [simpl in Hf; lia|].
    rewrite (IH fuel x); [reflexivity | exact H92x | exact H93x | exact Hp | simpl in Hf; lia].
Qed.

Lemma strip_brackets_plain A :
  class_literal A = true -> forallb plain_char (strip_brackets A) = true.
Proof.
  induction A as [|x A IH]; simpl; [reflexivity|]. intros H.
  apply andb_true_iff in H as [Hx H]. apply negb_true_iff in Hx.
  apply orb_false_iff in Hx as [H92 H45].
  unfold strip_brackets in *. simpl.
  destruct ((x =? 91) || (x =? 93)) eqn:Eb; simpl; [apply IH, H|].
  apply orb_false_iff in Eb as [_ H93].
  unfold plain_char at 1. rewrite H92, H45, H93. simpl. apply IH, H.
Qed.

Lemma compile_literal A :
  class_literal A = true ->
  new_RegExp_negated_class (baseCharacters ++ strip_brackets A)
  = Some (base_items ++ map ISingle (32 :: strip_brackets A)).
Proof.
  intros HA. unfold new_RegExp_negated_class. rewrite <- app_assoc.
  replace (S (List.length (baseCharacters ++ strip_brackets A ++ [93])))
    with (6 + S (List.length (strip_brackets A) + 8))%nat
    by (rewrite !length_app, length_baseCharacters; simpl; lia).
  rewrite parse_base_prefix, parse_plain; [reflexivity| lia | lia | | lia].
  apply strip_brackets_plain, HA.
Qed.

Lemma existsb_strip_brackets c A :
  existsb (Z.eqb c) (strip_brackets A)
  = existsb (Z.eqb c) A && negb ((c =? 91) || (c =? 93)).
Proof.
  induction A as [|x A IH]; simpl; [reflexivity|].
  unfold strip_brackets in *. simpl.
  destruct ((x =? 91) || (x =? 93)) eqn:Eb; simpl; rewrite IH.
  - destruct (Z.eqb_spec c x) as [Heq|Hne]; [subst x|reflexivity].
    rewrite Eb. simpl. rewrite !andb_false_r. reflexivity.
  - destruct (Z.eqb_spec c x) as [Heq|Hne]; [subst x|reflexivity].
    rewrite Eb. reflexivity.
Qed.

Lemma existsb_item_single c l :
  existsb (item_mem c) (map ISingle l) = existsb (Z.eqb c) l.
Proof. induction l as [|x l IH]; simpl; [reflexivity|]. rewrite IH. reflexivity. Qed.

(** With a literal additional string the compiled class is the literal
    effective allow-list. *)
Lemma class_mem_literal A c :
  class_mem (base_items ++ map ISingle (32 :: strip_brackets A)) c
  = effective_allowed A c.
Proof.
  unfold class_mem, effective_allowed, in_base_set, is_ascii_letter, is_digit.
  rewrite existsb_app, existsb_item_single. simpl.
  rewrite existsb_strip_brackets, orb_false_r. btauto.
Qed.

Lemma normalize_spec c : normalize c = spec_normalize c.
Proof.
  unfold normalize, spec_normalize, replace_quote, replace_apostrophe, replace_dash.
  destruct (Z.eqb_spec c 8211) as [->|]; [reflexivity|].
  destruct (Z.eqb_spec c 8212) as [->|]; [reflexivity|]. simpl.
  destruct (Z.eqb_spec c 8217) as [->|]; [reflexivity|].
  destruct (Z.eqb_spec c 8220) as [->|]; [reflexivity|].
  destruct (Z.eqb_spec c 8221) as [->|]; reflexivity.
Qed.

Lemma normalize_fix c : is_typographic c = false -> normalize c = c.
Proof.
  unfold is_typographic. rewrite normalize_spec. unfold spec_normalize.
  intros H. repeat (apply orb_false_iff in H as [H ?]).
  rewrite H. repeat match goal with E : (_ =? _) = false |- _ => rewrite E; clear E end.
  reflexivity.
Qed.

Lemma normalize_not_typographic c : is_typographic (normalize c) = false.
Proof.
  rewrite normalize_spec. unfold spec_normalize.
  destruct ((c =? 8211) || (c =? 8212)) eqn:E1; [reflexivity|].
  destruct (c =? 8217) eqn:E2; [reflexivity|].
  destruct ((c =? 8220) || (c =? 8221)) eqn:E3; [reflexivity|].
  unfold is_typographic. rewrite E1, E2. simpl. exact E3.
Qed.

(** ** The sanitizer: general lemmas *)

Lemma getSafeName_unfold raw A :
  getSafeName raw A =
  items <- new_RegExp_negated_class (baseCharacters ++ strip_brackets A) ;;
  Some (trim (map (replace_unknown items) (map normalize raw))).
Proof. unfold getSafeName, normalize. rewrite !map_map. reflexivity. Qed.

(** For an additional string without backslash and hyphen, the code computes
    the spec's pipeline. *)
Lemma getSafeName_literal raw A :
  class_literal A = true -> getSafeName raw A = Some (sanitize_spec raw A).
Proof.
  intros HA. rewrite getSafeName_unfold, compile_literal by exact HA. cbn [obind].
  unfold sanitize_spec. rewrite !map_map. f_equal. f_equal. apply map_ext. intros c.
  unfold replace_unknown. rewrite class_mem_literal, normalize_spec. reflexivity.
Qed.

(** Every code unit of the sanitized name is kept by the compiled class
    (hyphen included), and is no typographic variant. *)
Lemma sanitized_units items raw :
  class_mem items 45 = true ->
  Forall (fun c => class_mem items c = true /\ is_typographic c = false)
         (trim (map (replace_unknown items) (map normalize raw))).
Proof.
  intros H45. apply Forall_trim. rewrite map_map. apply Forall_forall.
  intros x Hx. apply in_map_iff in Hx as [c [<- _]]. unfold replace_unknown.
  destruct (class_mem items (normalize c)) eqn:E.
  - split; [exact E | apply normalize_not_typographic].
  - split; [exact H45 | reflexivity].
Qed.

Lemma sanitize_fixed items s :
  Forall (fun c => class_mem items c = true /\ is_typographic c = false) s ->
  map (replace_unknown items) (map normalize s) = s.
Proof.
  intros H. rewrite map_map. rewrite <- (map_id s) at 2. apply map_ext_in.
  intros c Hc. rewrite Forall_forall in H. destruct (H c Hc) as [Hm Ht].
  unfold replace_unknown. rewrite (normalize_fix c Ht), Hm. reflexivity.
Qed.

Lemma getSafeName_shape raw A t :
  getSafeName raw A = Some t ->
  exists items,
    new_RegExp_negated_class (baseCharacters ++ strip_brackets A) = Some items
    /\ t = trim (map (replace_unknown items) (map normalize raw))
    /\ class_mem items 45 = true /\ class_mem items 32 = true.
Proof.
  rewrite getSafeName_unfold.
  destruct (new_RegExp_negated_class _) as [items|] eqn:E; cbn [obind]; [|discriminate].
  intros H. injection H as <-. exists items.
  destruct (compile_base _ _ E). auto.
Qed.

(** Only the additional string decides whether the class construction
    throws. *)
Lemma getSafeName_error_iff raw A :
  getSafeName raw A = None <->
  new_RegExp_negated_class (baseCharacters ++ strip_brackets A) = None.
Proof.
  rewrite getSafeName_unfold.
  destruct (new_RegExp_negated_class _); cbn [obind]; split; congruence.
Qed.

Lemma getSafeName_output_literal raw A t :
  class_literal A = true -> getSafeName raw A = Some t ->
  forallb (effective_allowed A) t = true /\ starts_ws t = false /\ ends_ws t = false.
Proof.
  intros HA H. pose proof H as H'. apply getSafeName_shape in H' as [items [E [-> [H45 _]]]].
  rewrite compile_literal in E by exact HA. injection E as <-.
  split; [|split; [apply starts_ws_trim | apply ends_ws_trim]].
  apply forallb_forall. intros c Hc.
  pose proof (sanitized_units _ raw H45) as HF. rewrite Forall_forall in HF.
  rewrite <- class_mem_literal. apply (HF c Hc).
Qed.

(** A non-empty name of spaces sanitizes to the empty string whenever the
    class construction succeeds. *)
Lemma getSafeName_spaces n A t :
  getSafeName (repeat 32 (S n)) A = Some t -> t = [].
Proof.
  intros H. apply getSafeName_shape in H as [items [_ [-> [_ H32]]]].
  apply trim_all_ws. apply forallb_forall. intros c Hc.
  rewrite map_map in Hc. apply in_map_iff in Hc as [x [<- Hx]].
  apply repeat_spec in Hx as ->. unfold replace_unknown.
  change (normalize 32) with 32. rewrite H32. reflexivity.
Qed.

(** ** The plugin: general lemmas *)

Lemma renameSingleFile_unsafe settings h file w s :
  getSafeName (name file) (additionalCharacters settings) = Some s ->
  name file <> s ->
  renameSingleFile settings h file w =
  mbind (if is_tfile file && renameAutomatically settings
         then setAlias file (basename file) else ret tt)
        (fun _ =>
           mbind (moveFile h file (getSafePath file s))
             (fun result =>
                match result with
                | Success _ =>
                    ret (Success {| alreadySafe := false; previousName := name file;
                                    result_safeName := Some s |})
                | Failure alreadyExists _ _ => ret (Failure alreadyExists None (Some s))
                | Failure unspecified message _ => ret (Failure unspecified message None)
                end)) w.
Proof.
  intros Hs Hne. unfold renameSingleFile, getSafeNameFromFile.
  unfold mbind at 1. rewrite Hs. unfold of_option, ret at 1.
  unfold str_eqb. destruct (list_eq_dec Z.eq_dec (name file) s); [contradiction|].
  reflexivity.
Qed.

(** The requests an unsafe file causes: a front-matter write exactly when the
    entry is a [TFile] and [renameAutomatically] holds, then the rename; as
    long as its [aliases] value is absent or an array. *)
Lemma renameSingleFile_requests settings h file w s :
  getSafeName (name file) (additionalCharacters settings) = Some s ->
  name file <> s ->
  frontmatter_aliases w (path file) <> AliasesOther ->
  requests (snd (renameSingleFile settings h file w)) =
  requests w
  ++ (if is_tfile file && renameAutomatically settings
      then [EvProcessFrontMatter (path file)] else [])
  ++ [EvRenameFile (path file) (js_join 47 (getSafePath file s))].
Proof.
  intros Hs Hne Ha. rewrite (renameSingleFile_unsafe _ _ _ _ _ Hs Hne).
  unfold mbind, moveFile.
  destruct (is_tfile file && renameAutomatically settings).
  - unfold setAlias. destruct (frontmatter_aliases w (path file)) eqn:E;
      [| |contradiction]; simpl;
      destruct (host_renameFile h (path file) (js_join 47 (getSafePath file s))); simpl; rewrite <- ?app_assoc; reflexivity.
  - unfold ret at 1. simpl.
    destruct (host_renameFile h (path file) (js_join 47 (getSafePath file s))); reflexivity.
Qed.

(** The [unspecified] branch of [renameSingleFile] is dead: [moveFile] only
    produces [alreadyExists] failures. *)
Lemma renameSingleFile_never_unspecified settings h file w m d :
  fst (renameSingleFile settings h file w) <> Ok (Failure unspecified m d).
Proof.
  unfold renameSingleFile, getSafeNameFromFile, mbind, of_option, moveFile.
  destruct (getSafeName _ _) as [s|]; simpl; [|discriminate].
  destruct (str_eqb (name file) s); [discriminate|].
  destruct (is_tfile file && renameAutomatically settings).
  - unfold setAlias. destruct (frontmatter_aliases w (path file)); simpl;
      try discriminate;
      destruct (host_renameFile h (path file) (js_join 47 (getSafePath file s))); simpl; discriminate.
  - simpl. destruct (host_renameFile h (path file) (js_join 47 (getSafePath file s))); simpl; discriminate.
Qed.

Lemma getFilesToRename_flat_map settings files :
  (forall f, In f files -> getSafeName (name f) (additionalCharacters settings) <> None) ->
  getFilesToRename settings files =
  Some (flat_map (fun f =>
          match getSafeName (name f) (additionalCharacters settings) with
          | Some s => if str_eqb (name f) s then []
                      else [{| isAlreadySafe := false; safeName := s; file := f |}]
          | None => []
          end) files).
Proof.
  unfold getFilesToRename, getSafeNameFromFile.
  induction files as [|f files IH]; intros H; [reflexivity|].
  assert (Hf : getSafeName (name f) (additionalCharacters settings) <> None)
    by (apply H; left; reflexivity).
  destruct (getSafeName (name f) (additionalCharacters settings)) as [s|] eqn:E;
    [|contradiction].
  simpl. rewrite E. cbn [obind].
  specialize (IH (fun g Hg => H g (or_intror Hg))).
  destruct (map_option _ files) as [es|]; cbn [obind] in *; [|discriminate].
  injection IH as IH. simpl. rewrite <- IH.
  destruct (str_eqb (name f) s); reflexivity.
Qed.

(** ** Claims *)

(** C1 (code bug): the user's additional characters are spliced into the
    character class unescaped, so a hyphen between two of them makes a range.
    With additional characters [+-/] the comma survives, while the spec's
    pipeline (literal union) replaces it by a hyphen. *)
Theorem C1_getSafeName_additional_range :
  getSafeName (js ",") (js "+-/") = Some (js ",")
  /\ sanitize_spec (js ",") (js "+-/") = js "-".
Proof. split; vm_compute; reflexivity. Qed.

(** C2 (code bug): an additional-characters string ending in a backslash
    escapes the closing bracket; [new RegExp] throws a [SyntaxError] for every
    file name. *)
Theorem C2_getSafeName_backslash_throws raw :
  getSafeName raw (js "\") = None.
Proof. apply getSafeName_error_iff. vm_compute. reflexivity. Qed.

(** C3 (counterexample): an en-dash that the user allowed is still normalised
    to a hyphen by step 1, so an allow-listed name can change. *)
Lemma C3_stability_counterexample :
  forallb (effective_allowed [8211]) [8211] = true
  /\ starts_ws [8211] = false /\ ends_ws [8211] = false
  /\ getSafeName [8211] [8211] <> Some [8211].
Proof. vm_compute. repeat split; congruence. Qed.

(** C3 (amended): for additional characters without backslash or hyphen, a
    name made of allow-listed code units none of which is a typographic dash
    or quote, without whitespace at either end, is returned unchanged. *)
Theorem C3_getSafeName_stable s A :
  class_literal A = true ->
  forallb (fun c => effective_allowed A c && negb (is_typographic c)) s = true ->
  starts_ws s = false -> ends_ws s = false ->
  getSafeName s A = Some s.
Proof.
  intros HA Hs Hl Hr.
  rewrite getSafeName_unfold, compile_literal by exact HA. cbn [obind].
  rewrite sanitize_fixed; [rewrite trim_fixed by assumption; reflexivity|].
  apply Forall_forall. intros c Hc. rewrite forallb_forall in Hs.
  specialize (Hs c Hc). apply andb_true_iff in Hs as [Ha Ht].
  rewrite class_mem_literal. split; [exact Ha | apply negb_true_iff, Ht].
Qed.

Lemma C3_getSafeName_stable_witness :
  getSafeName (js "ok.md") (additionalCharacters DEFAULT_SETTINGS) = Some (js "ok.md").
Proof.
  apply C3_getSafeName_stable; vm_compute; reflexivity.
Defined.

(** C4 (code bug): [moveFile] classifies every Error of the host as
    [alreadyExists].  With a free destination and a rename failing with an I/O
    error, [renameSingleFile] reports [alreadyExists] instead of
    [unspecified] with the host's message. *)
Theorem C4_renameSingleFile_io_error_is_alreadyExists :
  host_contract host_eacces
  /\ host_exists host_eacces (js_join 47 (getSafePath bad_md (js "bad-.md"))) = false
  /\ fst (renameSingleFile DEFAULT_SETTINGS host_eacces bad_md world0)
     = Ok (Failure alreadyExists None (Some (js "bad-.md"))).
Proof.
  split; [intros src dst H; discriminate H|].
  split; vm_compute; reflexivity.
Qed.

(** C5: sanitizing twice is sanitizing once; when the class construction
    throws, both sides throw. *)
Theorem C5_getSafeName_idempotent s A :
  (t <- getSafeName s A ;; getSafeName t A) = getSafeName s A.
Proof.
  destruct (getSafeName s A) as [t|] eqn:E; cbn [obind]; [|reflexivity].
  pose proof E as E'. apply getSafeName_shape in E' as [items [Ec [Ht [H45 _]]]].
  rewrite getSafeName_unfold, Ec. cbn [obind].
  assert (HF := sanitized_units items s H45). rewrite <- Ht in HF.
  rewrite (sanitize_fixed _ _ HF), Ht, trim_idem. reflexivity.
Qed.

(** C6 (code bug): same defect as C1; the output keeps a comma that is not in
    the literal effective allow-list. *)
Theorem C6_getSafeName_output_outside_allow_list :
  getSafeName (js ",") (js "+-/") = Some (js ",")
  /\ effective_allowed (js "+-/") 44 = false.
Proof. split; vm_compute; reflexivity. Qed.

(** C7 (code bug): [setAlias] only creates [aliases] when it is [undefined];
    for a front matter with [aliases: null] the push throws, no alias is
    recorded and no rename is requested, although [renameAutomatically] is on
    and the file is unsafe. *)
Theorem C7_renameSingleFile_null_aliases_throws :
  renameAutomatically DEFAULT_SETTINGS = true
  /\ getSafeName (name bad_md) (additionalCharacters DEFAULT_SETTINGS) = Some (js "bad-.md")
  /\ renameSingleFile DEFAULT_SETTINGS host_free bad_md world_null_aliases
     = (Throw TypeError, world_null_aliases).
Proof. split; [reflexivity|]. split; vm_compute; reflexivity. Qed.

(** C8: the planner returns, in order, exactly the files whose sanitized name
    differs from their name, each with that name; for [ok.md] and [bad?.md]
    under the default settings only [bad?.md] is listed, with [bad-.md]. *)
Theorem C8_getFilesToRename_exact settings files :
  (forall f, In f files -> getSafeName (name f) (additionalCharacters settings) <> None) ->
  getFilesToRename settings files =
  Some (flat_map (fun f =>
          match getSafeName (name f) (additionalCharacters settings) with
          | Some s => if str_eqb (name f) s then []
                      else [{| isAlreadySafe := false; safeName := s; file := f |}]
          | None => []
          end) files)
  /\ getFilesToRename DEFAULT_SETTINGS [ok_md; bad_md]
     = Some [{| isAlreadySafe := false; safeName := js "bad-.md"; file := bad_md |}].
Proof.
  intros H. split; [apply getFilesToRename_flat_map, H | vm_compute; reflexivity].
Qed.

Lemma C8_getFilesToRename_exact_witness :
  getFilesToRename DEFAULT_SETTINGS [ok_md; bad_md]
  = Some [{| isAlreadySafe := false; safeName := js "bad-.md"; file := bad_md |}].
Proof.
  refine (proj1 (C8_getFilesToRename_exact DEFAULT_SETTINGS [ok_md; bad_md] _)).
  intros f [<-|[<-|[]]]; vm_compute; discriminate.
Defined.

(** C9: an already-safe file is a success with [alreadySafe = true]; the
    world (front matter and host requests) is left unchanged. *)
Theorem C9_renameSingleFile_already_safe settings h file w :
  getSafeName (name file) (additionalCharacters settings) = Some (name file) ->
  renameSingleFile settings h file w =
  (Ok (Success {| alreadySafe := true; previousName := name file;
                  result_safeName := None |}), w).
Proof.
  intros H. unfold renameSingleFile, getSafeNameFromFile, mbind, of_option.
  rewrite H. unfold ret, str_eqb.
  destruct (list_eq_dec Z.eq_dec (name file) (name file)); [reflexivity|contradiction].
Qed.

Lemma C9_renameSingleFile_already_safe_witness :
  renameSingleFile DEFAULT_SETTINGS host_free ok_md world0 =
  (Ok (Success {| alreadySafe := true; previousName := js "ok.md";
                  result_safeName := None |}), world0).
Proof.
  apply (C9_renameSingleFile_already_safe DEFAULT_SETTINGS host_free ok_md world0).
  vm_compute. reflexivity.
Defined.

(** C10 (code bug): same defect as C2; an out-of-order range [9-0] in the
    additional characters makes the sanitizer throw on a name of spaces
    instead of returning the empty string. *)
Theorem C10_getSafeName_spaces_range_throws :
  getSafeName (js " ") (js "9-0") = None.
Proof. vm_compute. reflexivity. Qed.

(** ** Further properties of the code *)

(** *** Helper lemmas *)

Lemma trim_start_length s : (List.length (trim_start s) <= List.length s)%nat.
Proof. induction s as [|c s IH]; simpl; [lia|]. destruct (is_ws c); simpl; lia. Qed.

Lemma trim_length s : (List.length (trim s) <= List.length s)%nat.
Proof.
  unfold trim, trim_end. rewrite length_rev.
  etransitivity; [apply trim_start_length|]. rewrite length_rev. apply trim_start_length.
Qed.

Lemma getSafeName_fixpoint s A t : getSafeName s A = Some t -> getSafeName t A = Some t.
Proof.
  intros E. pose proof E as E'. apply getSafeName_shape in E' as [items [Ec [Ht [H45 _]]]].
  rewrite getSafeName_unfold, Ec. cbn [obind].
  assert (HF := sanitized_units items s H45). rewrite <- Ht in HF.
  rewrite (sanitize_fixed _ _ HF), Ht, trim_idem. reflexivity.
Qed.

Lemma str_eqb_refl a : str_eqb a a = true.
Proof. unfold str_eqb. destruct (list_eq_dec Z.eq_dec a a); [reflexivity|contradiction]. Qed.

Lemma str_eqb_false a b : str_eqb a b = false -> a <> b.
Proof. unfold str_eqb. destruct (list_eq_dec Z.eq_dec a b); congruence. Qed.

Lemma renameSingleFile_fixed settings h file w :
  getSafeName (name file) (additionalCharacters settings) = Some (name file) ->
  renameSingleFile settings h file w =
  (Ok (Success {| alreadySafe := true; previousName := name file;
                  result_safeName := None |}), w).
Proof.
  intros H. unfold renameSingleFile, getSafeNameFromFile, mbind, of_option.
  rewrite H. unfold ret. rewrite str_eqb_refl. reflexivity.
Qed.

Lemma in_base_set_range c :
  in_base_set c = true ->
  (65 <= c <= 90 \/ 97 <= c <= 122) \/ 48 <= c <= 57 \/ c = 45 \/ c = 46 \/ c = 95 \/ c = 32.
Proof.
  unfold in_base_set, is_ascii_letter, is_digit.
  rewrite !orb_true_iff, !andb_true_iff, !Z.leb_le, !Z.eqb_eq. tauto.
Qed.

Lemma default_allowed_not_reserved c :
  effective_allowed (additionalCharacters DEFAULT_SETTINGS) c = true ->
  (32 <=? c) && negb (existsb (Z.eqb c) reserved_in_file_names) = true.
Proof.
  unfold effective_allowed. destruct (in_base_set c) eqn:Eb.
  - intros _. apply in_base_set_range in Eb.
    apply andb_true_iff. split; [apply Z.leb_le; lia|].
    apply negb_true_iff. simpl.
    repeat rewrite orb_false_iff. rewrite !Z.eqb_neq. lia.
  - intros H. rewrite orb_false_l in H. apply andb_true_iff in H as [H _].
    apply existsb_exists in H as [x [Hx Hc]]. apply Z.eqb_eq in Hc. subst x.
    simpl in Hx. repeat (destruct Hx as [<-|Hx]; [vm_compute; reflexivity|]). contradiction.
Qed.

Lemma js_split_not_nil sep s : js_split sep s <> [].
Proof.
  destruct s as [|c r]; simpl; [discriminate|].
  destruct (c =? sep); [discriminate|]. destruct (js_split sep r); discriminate.
Qed.

Lemma js_join_split sep s : js_join sep (js_split sep s) = s.
Proof.
  induction s as [|c r IH]; [reflexivity|]. simpl.
  destruct (c =? sep) eqn:E.
  - apply Z.eqb_eq in E. subst c. pose proof (js_split_not_nil sep r) as Hn.
    destruct (js_split sep r) as [|p ps]; [contradiction|].
    simpl in *. subst r. reflexivity.
  - pose proof (js_split_not_nil sep r) as Hn.
    destruct (js_split sep r) as [|p ps]; [contradiction|].
    destruct ps; simpl in *; subst r; reflexivity.
Qed.

Lemma js_join_snoc sep l s : l <> [] -> js_join sep (l ++ [s]) = js_join sep l ++ sep :: s.
Proof.
  induction l as [|x l IH]; intros Hl; [contradiction|].
  destruct l as [|y l]; [reflexivity|].
  change ((x :: y :: l) ++ [s]) with (x :: ((y :: l) ++ [s])).
  change (js_join sep (x :: (y :: l) ++ [s])) with (x ++ sep :: js_join sep ((y :: l) ++ [s])).
  change (js_join sep (x :: y :: l)) with (x ++ sep :: js_join sep (y :: l)).
  rewrite IH by discriminate. rewrite <- app_assoc. reflexivity.
Qed.

Lemma filter_nonempty_id (l : list str) :
  Forall (fun seg => seg <> []) l ->
  filter (fun part => negb (Nat.eqb (List.length part) 0)) l = l.
Proof.
  induction 1 as [|x l Hx _ IH]; [reflexivity|]. simpl.
  destruct x as [|c x]; [contradiction|]. simpl. rewrite IH. reflexivity.
Qed.

Lemma map_option_in {A B} (f : A -> option B) l l' y :
  map_option f l = Some l' -> In y l' -> exists x, In x l /\ f x = Some y.
Proof.
  revert l'. induction l as [|x l IH]; intros l' H Hy; simpl in H.
  - injection H as <-. contradiction.
  - destruct (f x) as [b|] eqn:Ef; cbn [obind] in H; [|discriminate].
    destruct (map_option f l) as [bs|]; cbn [obind] in H; [|discriminate].
    injection H as <-. destruct Hy as [<-|Hy].
    + exists x. split; [left; reflexivity | exact Ef].
    + destruct (IH bs eq_refl Hy) as [z [Hz Ez]]. exists z. split; [right|]; assumption.
Qed.

(** A successful rename reports the name that [getSafeName] gave. *)
Lemma renameSingleFile_success_name settings h file w r s :
  fst (renameSingleFile settings h file w) = Ok (Success r) ->
  result_safeName r = Some s ->
  getSafeName (name file) (additionalCharacters settings) = Some s.
Proof.
  unfold renameSingleFile, getSafeNameFromFile, mbind, of_option.
  destruct (getSafeName (name file) (additionalCharacters settings)) as [s0|];
    [|discriminate].
  unfold ret at 1. destruct (str_eqb (name file) s0).
  - intros H. injection H as <-. discriminate.
  - unfold moveFile. destruct (is_tfile file && renameAutomatically settings).
    + unfold setAlias. destruct (frontmatter_aliases w (path file)); simpl; try discriminate;
        destruct (host_renameFile h (path file) (js_join 47 (getSafePath file s0)));
        simpl; try discriminate; intros H; injection H as <-; simpl; congruence.
    + simpl. destruct (host_renameFile h (path file) (js_join 47 (getSafePath file s0)));
        simpl; try discriminate; intros H; injection H as <-; simpl; congruence.
Qed.

Lemma moveFile_fst h f np w :
  fst (moveFile h f np w) = move_outcome (host_renameFile h (path f) (js_join 47 np)).
Proof. unfold moveFile. destruct (host_renameFile _ _ _); reflexivity. Qed.

Lemma moveFile_snd h f np w :
  snd (moveFile h f np w) =
  {| frontmatter_aliases := frontmatter_aliases w;
     requests := requests w ++ [EvRenameFile (path f) (js_join 47 np)] |}.
Proof. unfold moveFile. destruct (host_renameFile _ _ _); reflexivity. Qed.

Lemma moveAll_fst h es w :
  fst (moveAll h es w) = map (fun e => move_outcome (answer_of h e)) es.
Proof.
  revert w. induction es as [|e es IH]; intros w; [reflexivity|]. simpl.
  pose proof (moveFile_fst h (file e) (getSafePath (file e) (safeName e)) w) as Hf.
  destruct (moveFile h (file e) (getSafePath (file e) (safeName e)) w) as [o w1].
  specialize (IH w1). destruct (moveAll h es w1) as [os w2]. simpl in *.
  rewrite Hf, IH. reflexivity.
Qed.

Lemma moveAll_snd h es w :
  requests (snd (moveAll h es w)) =
  requests w ++ map (fun e => EvRenameFile (path (file e))
                                (js_join 47 (getSafePath (file e) (safeName e)))) es
  /\ frontmatter_aliases (snd (moveAll h es w)) = frontmatter_aliases w.
Proof.
  revert w. induction es as [|e es IH]; intros w; [simpl; rewrite app_nil_r; auto|]. simpl.
  pose proof (moveFile_snd h (file e) (getSafePath (file e) (safeName e)) w) as Hf.
  destruct (moveFile h (file e) (getSafePath (file e) (safeName e)) w) as [o w1].
  specialize (IH w1). destruct (moveAll h es w1) as [os w2]. simpl in *.
  subst w1. simpl in IH. destruct IH as [IH1 IH2]. rewrite IH1, <- app_assoc. auto.
Qed.

Lemma renameAllFiles_unfold settings h files w es :
  getFilesToRename settings files = Some es ->
  renameAllFiles settings h files w =
  (let (outs, w') := moveAll h es w in
   match promise_all outs with
   | Throw e => (Throw e, w')
   | Ok results =>
       let (successes, failures) := count_results results in
       (Ok (if Nat.eqb failures 0
            then js "Successfully renamed " ++ dec successes ++ js " file(s)."
            else js "Failed to rename " ++ dec failures
                 ++ js " file(s). Successfully renamed " ++ dec successes
                 ++ js " file(s)."), w')
   end).
Proof. intros H. unfold renameAllFiles, mbind, of_option. rewrite H. reflexivity. Qed.

Lemma renameAllFiles_world settings h files w es :
  getFilesToRename settings files = Some es ->
  snd (renameAllFiles settings h files w) = snd (moveAll h es w).
Proof.
  intros H. rewrite (renameAllFiles_unfold _ _ _ _ _ H).
  destruct (moveAll h es w) as [outs w'].
  destruct (promise_all outs) as [results|]; [destruct (count_results results)|]; reflexivity.
Qed.

Lemma count_results_spec rs :
  count_results rs =
  (List.length (filter is_success rs), List.length (filter (fun r => negb (is_success r)) rs)).
Proof.
  unfold count_results.
  assert (G : forall a b,
    fold_left (fun '(successes, failures) result =>
                 if is_success result then (S successes, failures)
                 else (successes, S failures)) rs (a, b)
    = (a + List.length (filter is_success rs),
       b + List.length (filter (fun r => negb (is_success r)) rs))%nat).
  { induction rs as [|r rs IH]; intros a b; simpl; [f_equal; lia|].
    destruct (is_success r); simpl; rewrite IH; f_equal; lia. }
  rewrite G. reflexivity.
Qed.

Lemma promise_all_throw_in {A} (os : list (outcome A)) e :
  promise_all os = Throw e -> In (Throw e) os.
Proof.
  induction os as [|o os IH]; simpl; [discriminate|].
  destruct o as [a|e']; [|intros H; injection H as ->; left; reflexivity].
  destruct (promise_all os); [discriminate|]. intros H; injection H as ->. right. auto.
Qed.

Lemma promise_all_ok_in {A} (os : list (outcome A)) l e :
  promise_all os = Ok l -> ~ In (Throw e) os.
Proof.
  revert l. induction os as [|o os IH]; intros l; simpl; [intros _ []|].
  destruct o as [a|e']; [|discriminate].
  destruct (promise_all os) as [l'|]; [|discriminate]. intros _ [H|H]; [discriminate|].
  exact (IH l' eq_refl H).
Qed.

Lemma insert_by_perm {A} (cmp : A -> A -> Z) x l : Permutation (x :: l) (insert_by cmp x l).
Proof.
  induction l as [|y l IH]; simpl; [reflexivity|].
  destruct (cmp x y <? 0); [reflexivity|].
  etransitivity; [apply perm_swap|]. apply perm_skip, IH.
Qed.

Lemma sort_by_perm {A} (cmp : A -> A -> Z) l : Permutation l (sort_by cmp l).
Proof.
  unfold sort_by.
  assert (G : forall l acc, Permutation (acc ++ l)
                (fold_left (fun sorted x => insert_by cmp x sorted) l acc)).
  { induction l0 as [|x l0 IH]; intros acc; simpl; [rewrite app_nil_r; reflexivity|].
    rewrite <- IH. rewrite <- Permutation_middle.
    apply (Permutation_app_tail l0 (insert_by_perm cmp x acc)). }
  apply (G l []).
Qed.

Lemma ui_step_off ps op :
  automaticRenameCallbacks ps = None -> vault_handlers ps = [] -> layout_queue ps = 0%nat ->
  fst (ui_step ps op) = match op with LayoutReady => Ok tt | _ => Throw TypeError end
  /\ automaticRenameCallbacks (snd (ui_step ps op)) = None
  /\ vault_handlers (snd (ui_step ps op)) = []
  /\ layout_queue (snd (ui_step ps op)) = 0%nat
  /\ saved_data (snd (ui_step ps op)) = saved_data ps.
Proof.
  intros Hc Hv Hq.
  destruct op; unfold ui_step.
  1-3: unfold saveSettings, with_settings; cbn;
       match goal with |- context [if ?b then _ else _] => destruct b end;
       rewrite Hc; cbn; auto.
  destruct (layout_ready ps); cbn; [auto|]. rewrite Hq. cbn. auto.
Qed.

Lemma run_ui_off ps ops :
  automaticRenameCallbacks ps = None -> vault_handlers ps = [] -> layout_queue ps = 0%nat ->
  fst (run_ui ps ops) = map (fun op => match op with LayoutReady => Ok tt | _ => Throw TypeError end) ops
  /\ automaticRenameCallbacks (snd (run_ui ps ops)) = None
  /\ vault_handlers (snd (run_ui ps ops)) = []
  /\ saved_data (snd (run_ui ps ops)) = saved_data ps.
Proof.
  revert ps. induction ops as [|op ops IH]; intros ps Hc Hv Hq; [simpl; auto|].
  simpl. destruct (ui_step_off ps op Hc Hv Hq) as [H1 [H2 [H3 [H4 H5]]]].
  destruct (ui_step ps op) as [o ps1]. simpl in *.
  destruct (IH ps1 H2 H3 H4) as [I1 [I2 [I3 I4]]].
  destruct (run_ui ps1 ops) as [os ps2]. simpl in *. rewrite H1, I1, I4, H5. auto.
Qed.

Lemma filter_unregistered (cbs l : list EventRef) :
  incl l cbs -> filter (fun r => negb (existsb (ref_eqb r) cbs)) l = [].
Proof.
  induction l as [|r l IH]; intros Hi; [reflexivity|]. simpl.
  assert (E : existsb (ref_eqb r) cbs = true).
  { apply existsb_exists. exists r. split; [apply Hi; left; reflexivity|].
    unfold ref_eqb. apply Nat.eqb_refl. }
  rewrite E. simpl. apply IH. intros x Hx. apply Hi. right. exact Hx.
Qed.

Lemma saveSettings_on ps cbs (b : bool) :
  layout_ready ps = true -> layout_queue ps = 0%nat ->
  automaticRenameCallbacks ps = Some cbs -> vault_handlers ps = cbs ->
  map snd cbs = (if b then [VaultCreate; VaultRename] else []) ->
  let ps' := snd (saveSettings ps) in
  fst (saveSettings ps) = Ok tt
  /\ layout_ready ps' = true /\ layout_queue ps' = 0%nat
  /\ (exists cbs', automaticRenameCallbacks ps' = Some cbs' /\ vault_handlers ps' = cbs'
       /\ map snd cbs' = (if renameAutomatically (ps_settings ps')
                          then [VaultCreate; VaultRename] else []))
  /\ saved_data ps' = Some (stored_of (ps_settings ps')).
Proof.
  intros Hr Hq Hc Hv Hm. unfold saveSettings. rewrite Hc.
  destruct (renameAutomatically (ps_settings ps)) eqn:F; cbn.
  - destruct cbs as [|x xs]; cbn.
    + unfold registerAutomaticRenaming. rewrite Hr. cbn. rewrite ?F, ?Hv.
      repeat split; auto. eexists; repeat split; reflexivity.
    + rewrite ?F. repeat split; auto. exists (x :: xs). rewrite ?F. repeat split; auto.
      destruct b; [exact Hm|discriminate].
  - destruct cbs as [|x xs]; cbn.
    + rewrite ?F. repeat split; auto. exists []. rewrite ?F. auto.
    + unfold unregisterAutomaticRenaming. rewrite Hc. cbn. rewrite ?F, ?Hv.
      repeat split; auto. exists []. repeat split; auto.
      exact (filter_unregistered (x :: xs) (x :: xs) (fun y Hy => Hy)).
Qed.

Lemma ui_step_on ps op :
  layout_ready ps = true -> layout_queue ps = 0%nat ->
  (exists cbs, automaticRenameCallbacks ps = Some cbs /\ vault_handlers ps = cbs
     /\ map snd cbs = (if renameAutomatically (ps_settings ps)
                       then [VaultCreate; VaultRename] else [])) ->
  let ps' := snd (ui_step ps op) in
  fst (ui_step ps op) = Ok tt
  /\ layout_ready ps' = true /\ layout_queue ps' = 0%nat
  /\ (exists cbs, automaticRenameCallbacks ps' = Some cbs /\ vault_handlers ps' = cbs
       /\ map snd cbs = (if renameAutomatically (ps_settings ps')
                         then [VaultCreate; VaultRename] else []))
  /\ (op <> LayoutReady -> saved_data ps' = Some (stored_of (ps_settings ps')))
  /\ (op = LayoutReady -> ps' = ps).
Proof.
  intros Hr Hq [cbs [Hc [Hv Hm]]].
  destruct op as [value|value|value|]; unfold ui_step.
  1-3: cbv zeta;
    match goal with |- context [saveSettings (with_settings ?p ?st)] =>
      destruct (saveSettings_on (with_settings p st) cbs (renameAutomatically (ps_settings ps))
                  Hr Hq Hc Hv Hm) as [S1 [S2 [S3 [S4 S5]]]]
    end;
    repeat split; auto; discriminate.
  - rewrite Hr. cbn. repeat split; auto;
      [exists cbs; auto | intros H; exfalso; apply H; reflexivity].
Qed.

Lemma run_ui_on ps ops :
  layout_ready ps = true -> layout_queue ps = 0%nat ->
  (exists cbs, automaticRenameCallbacks ps = Some cbs /\ vault_handlers ps = cbs
     /\ map snd cbs = (if renameAutomatically (ps_settings ps)
                       then [VaultCreate; VaultRename] else [])) ->
  let ps' := snd (run_ui ps ops) in
  Forall (fun o => o = Ok tt) (fst (run_ui ps ops))
  /\ map snd (vault_handlers ps') = (if renameAutomatically (ps_settings ps')
                                    then [VaultCreate; VaultRename] else [])
  /\ (saved_data ps = Some (stored_of (ps_settings ps))
      \/ Exists (fun op => op <> LayoutReady) ops ->
      saved_data ps' = Some (stored_of (ps_settings ps'))).
Proof.
  revert ps. induction ops as [|op ops IH]; intros ps Hr Hq Hi.
  - destruct Hi as [cbs [_ [Hv Hm]]]. cbn. rewrite Hv. repeat split; auto.
    intros [H|H]; [exact H | inversion H].
  - destruct (ui_step_on ps op Hr Hq Hi) as [U1 [U2 [U3 [U4 [U5 U6]]]]].
    cbn. destruct (ui_step ps op) as [o ps1] eqn:Es. cbn in *.
    destruct (IH ps1 U2 U3 U4) as [I1 [I2 I3]].
    destruct (run_ui ps1 ops) as [os ps2]. cbn in *.
    repeat split; [constructor; assumption|exact I2|].
    intros H. apply I3.
    destruct op; try (left; apply U5; discriminate).
    rewrite (U6 eq_refl).
    destruct H as [H|H]; [left; exact H|].
    inversion H; subst; [contradiction|right; assumption].
Qed.

Lemma promise_all_moves h es :
  (forall e v, In e es -> answer_of h e <> RenameThrowsValue v) ->
  exists rs,
    promise_all (map (fun e => move_outcome (answer_of h e)) es) = Ok rs
    /\ List.length (filter is_success rs)
       = List.length (filter (fun e => match answer_of h e with RenameOk => true | _ => false end) es)
    /\ List.length (filter (fun r => negb (is_success r)) rs)
       = List.length (filter (fun e => match answer_of h e with RenameRejects _ => true | _ => false end) es)
    /\ (List.length (filter (fun e => match answer_of h e with RenameOk => true | _ => false end) es)
        + List.length (filter (fun e => match answer_of h e with RenameRejects _ => true | _ => false end) es)
        = List.length es)%nat.
Proof.
  induction es as [|e es IH]; intros Hn; [exists []; repeat split; reflexivity|].
  destruct IH as [rs [R1 [R2 [R3 R4]]]]; [intros e' v He'; apply Hn; right; exact He'|].
  simpl. destruct (answer_of h e) as [|m|v] eqn:Ea.
  - exists (Success true :: rs). simpl. rewrite R1. repeat split; simpl; lia.
  - exists (Failure alreadyExists (Some m) None :: rs). simpl. rewrite R1.
    repeat split; simpl; lia.
  - exfalso. exact (Hn e v (or_introl eq_refl) Ea).
Qed.

(** *** Extra properties *)

(** X1: whether [getSafeName] throws does not depend on the file name, only
    on the additional characters; with no additional characters (the default
    parameter) it never throws. *)
Theorem X1_getSafeName_throw_independent_of_name raw1 raw2 A :
  (getSafeName raw1 A = None <-> getSafeName raw2 A = None)
  /\ getSafeName raw1 [] <> None.
Proof.
  split.
  - rewrite !getSafeName_error_iff. reflexivity.
  - rewrite getSafeName_error_iff. vm_compute. discriminate.
Qed.

(** X2: for additional characters without backslash and hyphen,
    [getSafeName] normalises the typographic dashes and quotes, replaces each
    code unit outside the base set and the additional characters (square
    brackets excepted) by a hyphen, and trims whitespace. *)
Theorem X2_getSafeName_literal_pipeline raw A :
  class_literal A = true -> getSafeName raw A = Some (sanitize_spec raw A).
Proof. apply getSafeName_literal. Qed.

Lemma X2_getSafeName_literal_pipeline_witness :
  class_literal (js "(&)") = true
  /\ getSafeName (js " a?(b) ") (js "(&)") = Some (sanitize_spec (js " a?(b) ") (js "(&)")).
Proof.
  split; [vm_compute; reflexivity|].
  apply X2_getSafeName_literal_pipeline. vm_compute. reflexivity.
Defined.

(** X3: a sanitized name never contains an en dash, an em dash, a right
    single quotation mark or a left or right double quotation mark, even when
    the additional characters allow them. *)
Theorem X3_getSafeName_no_typographic raw A t :
  getSafeName raw A = Some t -> existsb is_typographic t = false.
Proof.
  intros H. apply getSafeName_shape in H as [items [_ [-> [H45 _]]]].
  pose proof (sanitized_units items raw H45) as HF.
  apply not_true_iff_false. intros He. apply existsb_exists in He as [c [Hc Ht]].
  rewrite Forall_forall in HF. destruct (HF c Hc) as [_ Hn]. congruence.
Qed.

Lemma X3_getSafeName_no_typographic_witness :
  existsb is_typographic (js "a-b") = false.
Proof.
  apply (X3_getSafeName_no_typographic [97; 8212; 98] [8212]). vm_compute. reflexivity.
Defined.

(** X4: a sanitized name is never longer (in UTF-16 code units) than the
    name it was computed from. *)
Theorem X4_getSafeName_not_longer raw A t :
  getSafeName raw A = Some t -> (List.length t <= List.length raw)%nat.
Proof.
  intros H. apply getSafeName_shape in H as [items [_ [-> _]]].
  etransitivity; [apply trim_length|]. rewrite !length_map. reflexivity.
Qed.

Lemma X4_getSafeName_not_longer_witness :
  (List.length (js "a b") <= List.length (js "  a?b  "))%nat.
Proof.
  apply (X4_getSafeName_not_longer (js "  a?b  ") [] (js "a-b")). vm_compute. reflexivity.
Defined.

(** X5: under the default settings [getSafeName] never throws, and every
    code unit of its result is in the base set or among the default
    additional characters; in particular none is a control character (below
    U+0020) or one of [/ \ : * ? < > |] and the double quote. *)
Theorem X5_getSafeName_default_settings raw :
  exists t, getSafeName raw (additionalCharacters DEFAULT_SETTINGS) = Some t
  /\ forallb (effective_allowed (additionalCharacters DEFAULT_SETTINGS)) t = true
  /\ forallb (fun c => (32 <=? c) && negb (existsb (Z.eqb c) reserved_in_file_names)) t = true.
Proof.
  assert (HA : class_literal (additionalCharacters DEFAULT_SETTINGS) = true)
    by (vm_compute; reflexivity).
  exists (sanitize_spec raw (additionalCharacters DEFAULT_SETTINGS)).
  pose proof (getSafeName_literal raw _ HA) as E.
  destruct (getSafeName_output_literal _ _ _ HA E) as [Hall _].
  split; [exact E|]. split; [exact Hall|].
  apply forallb_forall. intros c Hc. rewrite forallb_forall in Hall.
  apply default_allowed_not_reserved, Hall, Hc.
Qed.

(** X6: the destination of a move is the parent folder's path, a slash and
    the safe name when that path has no empty segment (no leading, trailing or
    doubled slash); for a file in the vault root (folder path [/]) it is the
    safe name alone. *)
Theorem X6_getSafePath_destination file s p :
  parent file = Some p ->
  (p = js "/" -> js_join 47 (getSafePath file s) = s)
  /\ (Forall (fun seg => seg <> []) (js_split 47 p) ->
      js_join 47 (getSafePath file s) = p ++ 47 :: s).
Proof.
  intros Hp. unfold getSafePath. rewrite Hp. split.
  - intros ->. reflexivity.
  - intros Hf. rewrite filter_nonempty_id by exact Hf.
    rewrite js_join_snoc by apply js_split_not_nil. rewrite js_join_split. reflexivity.
Qed.

Lemma X6_getSafePath_destination_witness :
  js_join 47 (getSafePath note_in_folder (js "a-.md")) = js "notes/2024/a-.md".
Proof.
  refine (proj2 (X6_getSafePath_destination note_in_folder (js "a-.md") (js "notes/2024")
                   eq_refl) _).
  vm_compute. repeat constructor; discriminate.
Defined.

(** X7: every entry the planner returns is one of the vault's files, marked
    not already safe, whose name differs from its safe name, that safe name
    being what [getSafeName] gives for the file's name and itself left
    unchanged by [getSafeName]. *)
Theorem X7_getFilesToRename_targets settings files es :
  getFilesToRename settings files = Some es ->
  forall e, In e es ->
  In (file e) files /\ isAlreadySafe e = false
  /\ getSafeName (name (file e)) (additionalCharacters settings) = Some (safeName e)
  /\ name (file e) <> safeName e
  /\ getSafeName (safeName e) (additionalCharacters settings) = Some (safeName e).
Proof.
  intros H e He. unfold getFilesToRename in H.
  destruct (map_option _ files) as [entries|] eqn:Em; cbn [obind] in H; [|discriminate].
  injection H as <-. apply filter_In in He as [He Hs].
  destruct (map_option_in _ _ _ _ Em He) as [f [Hf Ef]].
  unfold getSafeNameFromFile in Ef.
  destruct (getSafeName (name f) (additionalCharacters settings)) as [s|] eqn:Eg;
    cbn [obind] in Ef; [|discriminate].
  injection Ef as <-. simpl in *. apply negb_true_iff in Hs.
  repeat split; auto.
  - apply str_eqb_false, Hs.
  - apply (getSafeName_fixpoint _ _ _ Eg).
Qed.

Lemma X7_getFilesToRename_targets_witness :
  getSafeName (js "bad-.md") (additionalCharacters DEFAULT_SETTINGS) = Some (js "bad-.md").
Proof.
  refine (proj2 (proj2 (proj2 (proj2
    (X7_getFilesToRename_targets DEFAULT_SETTINGS [ok_md; bad_md]
       [{| isAlreadySafe := false; safeName := js "bad-.md"; file := bad_md |}] _
       {| isAlreadySafe := false; safeName := js "bad-.md"; file := bad_md |} _))))).
  - vm_compute. reflexivity.
  - left. reflexivity.
Defined.

(** X8: the [rename] event that follows the plugin's own successful rename is
    harmless: [onRename] on a file carrying the new name shows no notice and
    changes nothing, so automatic renaming does not loop. *)
Theorem X8_onRename_after_own_rename settings h file w r s file' w' :
  fst (renameSingleFile settings h file w) = Ok (Success r) ->
  result_safeName r = Some s ->
  name file' = s ->
  onRename settings h file' w' = (Ok [], w').
Proof.
  intros H1 H2 H3.
  pose proof (renameSingleFile_success_name _ _ _ _ _ _ H1 H2) as Hs.
  apply getSafeName_fixpoint in Hs. rewrite <- H3 in Hs.
  unfold onRename, renameSingleFileSilently, mbind.
  rewrite (renameSingleFile_fixed _ h _ w' Hs). reflexivity.
Qed.

Lemma X8_onRename_after_own_rename_witness :
  onRename DEFAULT_SETTINGS host_free bad_md_renamed world0 = (Ok [], world0).
Proof.
  apply (X8_onRename_after_own_rename DEFAULT_SETTINGS host_free bad_md world0
           {| alreadySafe := false; previousName := js "bad?.md";
              result_safeName := Some (js "bad-.md") |} (js "bad-.md") bad_md_renamed world0);
    vm_compute; reflexivity.
Defined.

(** X9: when [renameAutomatically] is on, renaming an unsafe note appends its
    base name to the [aliases] list of its front matter (creating the list when
    absent) and keeps the aliases it had; this stays so whatever the host
    answers to the move, and no other file's front matter changes. *)
Theorem X9_renameSingleFile_alias_appended settings h file w s l :
  is_tfile file = true -> renameAutomatically settings = true ->
  getSafeName (name file) (additionalCharacters settings) = Some s -> name file <> s ->
  frontmatter_aliases w (path file) = AliasesArray l
  \/ (frontmatter_aliases w (path file) = AliasesUndefined /\ l = []) ->
  forall p,
  frontmatter_aliases (snd (renameSingleFile settings h file w)) p =
  if str_eqb p (path file) then AliasesArray (l ++ [basename file])
  else frontmatter_aliases w p.
Proof.
  intros Ht Hr Hs Hne Ha p. rewrite (renameSingleFile_unsafe _ _ _ _ _ Hs Hne), Ht, Hr.
  cbn [andb]. unfold mbind, setAlias, moveFile.
  destruct Ha as [E|[E ->]]; rewrite E; cbn;
    destruct (host_renameFile h (path file) (js_join 47 (getSafePath file s))); reflexivity.
Qed.

Lemma X9_renameSingleFile_alias_appended_witness :
  frontmatter_aliases (snd (renameSingleFile DEFAULT_SETTINGS host_eacces bad_md world0))
    (path bad_md) = AliasesArray [js "bad?"].
Proof.
  refine (eq_trans (X9_renameSingleFile_alias_appended DEFAULT_SETTINGS host_eacces bad_md
                      world0 (js "bad-.md") [] eq_refl eq_refl _ _ _ (path bad_md)) _).
  - vm_compute. reflexivity.
  - vm_compute. discriminate.
  - right. split; reflexivity.
  - vm_compute. reflexivity.
Defined.

(** X10: the setting [addOriginalAlias] ("Keep original name as alias") has
    no effect: renaming one file, the [rename] handler, the planner, renaming
    all files and the report behave the same whatever its value. *)
Theorem X10_addOriginalAlias_ignored settings b :
  let settings' := {| renameAutomatically := renameAutomatically settings;
                      addOriginalAlias := b;
                      additionalCharacters := additionalCharacters settings |} in
  (forall h file w, renameSingleFile settings' h file w = renameSingleFile settings h file w)
  /\ (forall h file w, onRename settings' h file w = onRename settings h file w)
  /\ (forall files, getFilesToRename settings' files = getFilesToRename settings files)
  /\ (forall h files w, renameAllFiles settings' h files w = renameAllFiles settings h files w)
  /\ (forall h localeCompare files,
        generateReport settings' h localeCompare files
        = generateReport settings h localeCompare files).
Proof. intros settings'. repeat split; reflexivity. Qed.

(** X11: renaming all files requests one move per planned entry, in the
    planner's order, each to the entry's safe path joined with slashes, and
    writes no front matter (no alias is added); this holds whatever the host
    answers. *)
Theorem X11_renameAllFiles_requests settings h files w es :
  getFilesToRename settings files = Some es ->
  requests (snd (renameAllFiles settings h files w)) =
  requests w ++ map (fun e => EvRenameFile (path (file e))
                                (js_join 47 (getSafePath (file e) (safeName e)))) es
  /\ frontmatter_aliases (snd (renameAllFiles settings h files w)) = frontmatter_aliases w.
Proof. intros H. rewrite (renameAllFiles_world _ _ _ _ _ H). apply moveAll_snd. Qed.

Lemma X11_renameAllFiles_requests_witness :
  requests (snd (renameAllFiles DEFAULT_SETTINGS host_free [ok_md; bad_md] world0))
  = [EvRenameFile (js "bad?.md") (js "bad-.md")].
Proof.
  refine (eq_trans (proj1 (X11_renameAllFiles_requests DEFAULT_SETTINGS host_free
            [ok_md; bad_md] world0
            [{| isAlreadySafe := false; safeName := js "bad-.md"; file := bad_md |}] _)) _);
    vm_compute; reflexivity.
Defined.

(** X12: when no move rejects with a non-Error value, renaming all files
    shows one notice whose counts are the number of moves the host performed
    and the number it refused; the two add up to the number of planned
    entries, and the notice reports failures only when there are some. *)
Theorem X12_renameAllFiles_notice settings h files w es :
  getFilesToRename settings files = Some es ->
  (forall e v, In e es -> answer_of h e <> RenameThrowsValue v) ->
  let successes :=
    List.length (filter (fun e => match answer_of h e with RenameOk => true | _ => false end) es) in
  let failures :=
    List.length (filter (fun e => match answer_of h e with RenameRejects _ => true | _ => false end) es) in
  (successes + failures = List.length es)%nat
  /\ fst (renameAllFiles settings h files w) =
     Ok (if Nat.eqb failures 0
         then js "Successfully renamed " ++ dec successes ++ js " file(s)."
         else js "Failed to rename " ++ dec failures
              ++ js " file(s). Successfully renamed " ++ dec successes ++ js " file(s).").
Proof.
  intros H Hn successes failures.
  destruct (promise_all_moves h es Hn) as [rs [R1 [R2 [R3 R4]]]].
  split; [exact R4|].
  rewrite (renameAllFiles_unfold _ _ _ _ _ H).
  pose proof (moveAll_fst h es w) as Hf.
  destruct (moveAll h es w) as [outs w']. simpl in Hf. subst outs.
  rewrite R1, count_results_spec, R2, R3. reflexivity.
Qed.

Lemma X12_renameAllFiles_notice_witness :
  fst (renameAllFiles DEFAULT_SETTINGS host_eacces [ok_md; bad_md] world0)
  = Ok (js "Failed to rename 1 file(s). Successfully renamed 0 file(s).").
Proof.
  refine (eq_trans (proj2 (X12_renameAllFiles_notice DEFAULT_SETTINGS host_eacces
            [ok_md; bad_md] world0
            [{| isAlreadySafe := false; safeName := js "bad-.md"; file := bad_md |}] _ _)) _).
  - vm_compute. reflexivity.
  - intros e v [<-|[]]. vm_compute. discriminate.
  - vm_compute. reflexivity.
Defined.

(** X13: when one move rejects with a value that is not an Error,
    renaming all files rejects as well and shows no notice. *)
Theorem X13_renameAllFiles_non_error_rejects settings h files w es e v :
  getFilesToRename settings files = Some es ->
  In e es -> answer_of h e = RenameThrowsValue v ->
  exists v', fst (renameAllFiles settings h files w) = Throw (HostThrow v').
Proof.
  intros H He Ha. rewrite (renameAllFiles_unfold _ _ _ _ _ H).
  pose proof (moveAll_fst h es w) as Hf.
  destruct (moveAll h es w) as [outs w']. simpl in Hf. subst outs.
  destruct (promise_all _) as [results|ex] eqn:Ep.
  - exfalso. apply (promise_all_ok_in _ _ (HostThrow v) Ep).
    apply in_map_iff. exists e. rewrite Ha. split; [reflexivity | exact He].
  - apply promise_all_throw_in in Ep. apply in_map_iff in Ep as [x [Ex _]].
    unfold move_outcome in Ex. destruct (answer_of h x) as [|m|v']; try discriminate.
    injection Ex as <-. exists v'. reflexivity.
Qed.

Lemma X13_renameAllFiles_non_error_rejects_witness :
  exists v', fst (renameAllFiles DEFAULT_SETTINGS host_throwing [ok_md; bad_md] world0)
             = Throw (HostThrow v').
Proof.
  apply (X13_renameAllFiles_non_error_rejects DEFAULT_SETTINGS host_throwing [ok_md; bad_md]
           world0 [{| isAlreadySafe := false; safeName := js "bad-.md"; file := bad_md |}]
           {| isAlreadySafe := false; safeName := js "bad-.md"; file := bad_md |} 0).
  - vm_compute. reflexivity.
  - left. reflexivity.
  - reflexivity.
Defined.

(** X14: for an unsafe file whose [aliases] value is absent or an array, the
    silent rename (the [create] and [rename] handlers) shows exactly one
    notice: a success notice when the host moves the file, and otherwise a
    notice that the target name already exists, naming the safe name, for any
    Error of the host. *)
Theorem X14_renameSingleFileSilently_notice settings h file w s :
  getSafeName (name file) (additionalCharacters settings) = Some s ->
  name file <> s ->
  frontmatter_aliases w (path file) <> AliasesOther ->
  fst (renameSingleFileSilently settings h file w) =
  match host_renameFile h (path file) (js_join 47 (getSafePath file s)) with
  | RenameOk => Ok [js "Renamed file to make it sync-safe."]
  | RenameRejects _ =>
      Ok [js "Sync-safe: Could not rename to " ++ [34] ++ s ++ [34]
          ++ js " because that file already exists."]
  | RenameThrowsValue v => Throw (HostThrow v)
  end.
Proof.
  intros Hs Hne Ha. unfold renameSingleFileSilently.
  unfold mbind at 1. rewrite (renameSingleFile_unsafe _ _ _ _ _ Hs Hne).
  unfold mbind, moveFile. destruct (is_tfile file && renameAutomatically settings).
  - unfold setAlias. destruct (frontmatter_aliases w (path file)); [| |contradiction]; cbn;
      destruct (host_renameFile h (path file) (js_join 47 (getSafePath file s))); reflexivity.
  - cbn. destruct (host_renameFile h (path file) (js_join 47 (getSafePath file s)));
      reflexivity.
Qed.

Lemma X14_renameSingleFileSilently_notice_witness :
  fst (renameSingleFileSilently DEFAULT_SETTINGS host_eacces bad_md world0) =
  Ok [js "Sync-safe: Could not rename to " ++ [34] ++ js "bad-.md" ++ [34]
      ++ js " because that file already exists."].
Proof.
  refine (eq_trans (X14_renameSingleFileSilently_notice DEFAULT_SETTINGS host_eacces bad_md
                      world0 (js "bad-.md") _ _ _) _).
  - vm_compute. reflexivity.
  - vm_compute. discriminate.
  - vm_compute. discriminate.
  - vm_compute. reflexivity.
Defined.

(** X15: the report says that all files are already sync-safe when the
    planner finds nothing to rename; otherwise its header gives the number of
    planned entries and its table has exactly one row per planned entry, each
    marking whether the slash-joined destination is free. *)
Theorem X15_generateReport_rows settings h localeCompare files es :
  getFilesToRename settings files = Some es ->
  (es = [] ->
   generateReport settings h localeCompare files = Some (js "All files are already sync-safe."))
  /\ (es <> [] ->
      exists sorted, Permutation es sorted
      /\ generateReport settings h localeCompare files =
         Some (dec (List.length es) ++ js " files should be renamed to be sync-safe:" ++ [10; 10]
               ++ tableHeading ++ [10]
               ++ js_join 10 (map (fun e => report_row
                                   (negb (host_exists h (js_join 47 (getSafePath (file e) (safeName e)))), e))
                                sorted))).
Proof.
  intros H. unfold generateReport. rewrite H. cbn [obind]. split.
  - intros ->. reflexivity.
  - intros Hne. destruct es as [|e0 es0]; [contradiction|]. cbn [List.length Nat.eqb].
    exists (sort_by (fun left right => localeCompare (path (file left)) (path (file right)))
                    (e0 :: es0)).
    split; [apply sort_by_perm|].
    rewrite map_map, <- (Permutation_length (sort_by_perm _ (e0 :: es0))). reflexivity.
Qed.

Lemma X15_generateReport_rows_witness :
  generateReport DEFAULT_SETTINGS host_free (fun _ _ => 0) [ok_md]
  = Some (js "All files are already sync-safe.").
Proof.
  refine (proj1 (X15_generateReport_rows DEFAULT_SETTINGS host_free (fun _ _ => 0) [ok_md] [] _)
            eq_refl).
  vm_compute. reflexivity.
Defined.

(** X16: when the plugin is loaded with automatic renaming switched off,
    [automaticRenameCallbacks] is never assigned, so every change made in the
    settings tab makes [saveSettings] throw a [TypeError]: the settings are
    never stored again in that session, and automatic renaming cannot be
    switched on (no vault handler is ever registered). *)
Theorem X16_settings_never_saved_when_loaded_off data ready ops :
  renameAutomatically (loadSettings data) = false ->
  fst (run_ui (onload data ready) ops)
  = map (fun op => match op with LayoutReady => Ok tt | _ => Throw TypeError end) ops
  /\ vault_handlers (snd (run_ui (onload data ready) ops)) = []
  /\ saved_data (snd (run_ui (onload data ready) ops)) = data.
Proof.
  intros H.
  assert (E : onload data ready =
    {| ps_settings := loadSettings data; automaticRenameCallbacks := None;
       vault_handlers := []; layout_ready := ready; layout_queue := 0;
       next_ref := 0; saved_data := data |})
    by (unfold onload; cbn [ps_settings]; rewrite H; reflexivity).
  rewrite E.
  destruct (run_ui_off {| ps_settings := loadSettings data; automaticRenameCallbacks := None;
                          vault_handlers := []; layout_ready := ready; layout_queue := 0;
                          next_ref := 0; saved_data := data |} ops eq_refl eq_refl eq_refl)
    as [R1 [_ [R3 R4]]].
  auto.
Qed.

Lemma X16_settings_never_saved_when_loaded_off_witness :
  fst (run_ui (onload data_auto_off true) [SetRenameAutomatically true]) = [Throw TypeError].
Proof.
  exact (proj1 (X16_settings_never_saved_when_loaded_off data_auto_off true
                  [SetRenameAutomatically true] eq_refl)).
Defined.

(** X17: when the plugin is loaded with automatic renaming switched on, once
    the layout is ready every change in the settings tab succeeds; afterwards
    exactly one [create] and one [rename] handler are registered on the vault
    when the setting is on and none when it is off, and the stored data are
    the current settings as soon as one change was made. *)
Theorem X17_automatic_renaming_follows_setting data ready ops :
  renameAutomatically (loadSettings data) = true ->
  let ps := snd (run_ui (onload data ready) (LayoutReady :: ops)) in
  Forall (fun o => o = Ok tt) (fst (run_ui (onload data ready) (LayoutReady :: ops)))
  /\ map snd (vault_handlers ps)
     = (if renameAutomatically (ps_settings ps) then [VaultCreate; VaultRename] else [])
  /\ (Exists (fun op => op <> LayoutReady) ops ->
      saved_data ps = Some (stored_of (ps_settings ps))).
Proof.
  intros H.
  assert (E : exists ps1, ui_step (onload data ready) LayoutReady = (Ok tt, ps1)
            /\ layout_ready ps1 = true /\ layout_queue ps1 = 0%nat
            /\ exists cbs, automaticRenameCallbacks ps1 = Some cbs /\ vault_handlers ps1 = cbs
                 /\ map snd cbs = (if renameAutomatically (ps_settings ps1)
                                   then [VaultCreate; VaultRename] else [])).
  { unfold onload. cbn [ps_settings]. rewrite H.
    destruct ready; cbn; (eexists; split; [reflexivity|]); cbn;
      repeat split; (eexists; repeat split; cbn; rewrite H; reflexivity). }
  destruct E as [ps1 [Es [Hr [Hq Hi]]]].
  destruct (run_ui_on ps1 ops Hr Hq Hi) as [R1 [R2 R3]].
  cbn [run_ui]. rewrite Es.
  destruct (run_ui ps1 ops) as [os ps2]. cbn in *.
  repeat split; [constructor; [reflexivity|exact R1] | exact R2 |].
  intros Hx. apply R3. right. exact Hx.
Qed.

Lemma X17_automatic_renaming_follows_setting_witness :
  map snd (vault_handlers (snd (run_ui (onload None false)
    [LayoutReady; SetRenameAutomatically false; SetRenameAutomatically true])))
  = [VaultCreate; VaultRename].
Proof.
  refine (eq_trans (proj1 (proj2 (X17_automatic_renaming_follows_setting None false
            [SetRenameAutomatically false; SetRenameAutomatically true] eq_refl))) _).
  vm_compute. reflexivity.
Defined.
